(** * Urmston Town web agent: the chat page's stream reassembly and reducer

    A shallow embedding of the client-side streaming code of the chat UI:

    - [ChatPage]: the reducer-driven page ([chatReducer], and the read loop of
      [handleSendMessage]) that takes the body of [POST /chat/stream] apart
      into SSE blocks, parses them and dispatches reducer actions;
    - [SendMessageAppend]: the block handler of the earlier revision of that
      page, which appends deltas instead;
    - [ChatInterface]: the [useState]-driven component ([processStreamChunk]
      and the read loop of [handleSubmit]).

    JavaScript strings are modelled as [string]: sequences of code units in
    the range U+0000..U+00FF.  The text handed to the loops is the output of
    [TextDecoder.decode(value, {stream: true})]; the chunks below are those
    decoded pieces. *)

From Stdlib Require Import String Ascii NArith DecimalString.
From stdpp Require Import gmap strings list fin_maps.

Local Open Scope string_scope.

(** ** JavaScript string primitives used by the source *)

Module JS.

Definition chLF : ascii := "010"%char.
Definition chCR : ascii := "013"%char.
Definition chQUOTE : ascii := "034"%char.
Definition chBACKSLASH : ascii := "092"%char.

(** The two blank-line delimiters, ['\n\n'] and ['\r\n\r\n']. *)
Definition LFLF : string := String chLF (String chLF EmptyString).
Definition CRLFCRLF : string :=
  String chCR (String chLF (String chCR (String chLF EmptyString))).

(** [s.startsWith(p)]. *)
Fixpoint startsWith (s p : string) {struct p} : bool :=
  match p with
  | EmptyString => true
  | String a p' =>
      match s with
      | EmptyString => false
      | String b s' => if Ascii.eqb a b then startsWith s' p' else false
      end
  end.

(** [s.indexOf(p)]; [None] stands for the result [-1]. *)
Fixpoint indexOf (s p : string) : option nat :=
  if startsWith s p then Some 0
  else match s with
       | EmptyString => None
       | String _ s' => option_map S (indexOf s' p)
       end.

(** [s.substring(n)]. *)
Fixpoint substring_from (n : nat) (s : string) : string :=
  match n, s with
  | 0, _ => s
  | S _, EmptyString => EmptyString
  | S n', String _ s' => substring_from n' s'
  end.

(** [p] occurs in [s] at index [i]. *)
Definition occursAt (s p : string) (i : nat) : Prop :=
  startsWith (substring_from i s) p = true.

(** [s.substring(0, n)]. *)
Fixpoint substring_upto (n : nat) (s : string) : string :=
  match n, s with
  | 0, _ => EmptyString
  | S _, EmptyString => EmptyString
  | S n', String c s' => String c (substring_upto n' s')
  end.

(** White space and line terminators of ECMAScript within U+0000..U+00FF. *)
Definition isWhiteSpace (c : ascii) : bool :=
  let n := nat_of_ascii c in
  (Nat.eqb n 9 || Nat.eqb n 10 || Nat.eqb n 11 || Nat.eqb n 12
   || Nat.eqb n 13 || Nat.eqb n 32 || Nat.eqb n 160)%bool.

Fixpoint trimStart (s : string) : string :=
  match s with
  | EmptyString => EmptyString
  | String c s' => if isWhiteSpace c then trimStart s' else s
  end.

Fixpoint trimEnd (s : string) : string :=
  match s with
  | EmptyString => EmptyString
  | String c s' =>
      match trimEnd s' with
      | EmptyString => if isWhiteSpace c then EmptyString else String c EmptyString
      | t => String c t
      end
  end.

(** [s.trim()]. *)
Definition trim (s : string) : string := trimEnd (trimStart s).

(** A string is truthy when it is not empty. *)
Definition truthy (s : string) : bool :=
  match s with EmptyString => false | _ => true end.

(** [c.toUpperCase()] on one code unit.  Code units above U+007F are left as
    they are: none of them upper-cases to an ASCII character, so comparisons
    of an upper-cased string with an ASCII literal come out as in
    JavaScript. *)
Definition upperChar (c : ascii) : ascii :=
  let n := nat_of_ascii c in
  if (Nat.leb 97 n && Nat.leb n 122)%bool then ascii_of_nat (n - 32) else c.

(** [s.toUpperCase()]. *)
Fixpoint toUpperCase (s : string) : string :=
  match s with
  | EmptyString => EmptyString
  | String c s' => String (upperChar c) (toUpperCase s')
  end.

(** [`${n}`] for a non-negative integer [n], as [Date.now()] returns. *)
Definition decimal (n : N) : string := NilEmpty.string_of_uint (N.to_uint n).

(** Wire text is written below with ['] standing for the double quote. *)
Fixpoint wire (s : string) : string :=
  match s with
  | EmptyString => EmptyString
  | String c s' =>
      String (if Ascii.eqb c "'"%char then chQUOTE else c) (wire s')
  end.

End JS.

(** ** [JSON.parse] and the property reads the source performs on its result *)

Module JSON.

Local Set Warnings "-register-all".

Inductive json :=
| JNull
| JBool (b : bool)
| JNumber (literal : string)
| JString (s : string)
| JArray (items : list json)
| JObject (members : list (string * json)).

Definition isJsonSpace (c : ascii) : bool :=
  let n := nat_of_ascii c in
  (Nat.eqb n 32 || Nat.eqb n 9 || Nat.eqb n 10 || Nat.eqb n 13)%bool.

Fixpoint skipWs (s : string) : string :=
  match s with
  | String c s' => if isJsonSpace c then skipWs s' else s
  | EmptyString => s
  end.

Definition isDigit (c : ascii) : bool :=
  let n := nat_of_ascii c in (Nat.leb 48 n && Nat.leb n 57)%bool.

Definition hexValue (c : ascii) : option nat :=
  let n := nat_of_ascii c in
  if (Nat.leb 48 n && Nat.leb n 57)%bool then Some (n - 48)
  else if (Nat.leb 65 n && Nat.leb n 70)%bool then Some (n - 55)
  else if (Nat.leb 97 n && Nat.leb n 102)%bool then Some (n - 87)
  else None.

(** The character a simple escape [\c] denotes. *)
Definition simpleEscape (c : ascii) : option ascii :=
  match c with
  | "034"%char => Some "034"%char
  | "092"%char => Some "092"%char
  | "/"%char => Some "/"%char
  | "b"%char => Some "008"%char
  | "f"%char => Some "012"%char
  | "n"%char => Some "010"%char
  | "r"%char => Some "013"%char
  | "t"%char => Some "009"%char
  | _ => None
  end.

Definition consResult (c : ascii) (r : option (string * string))
  : option (string * string) :=
  match r with
  | Some (body, rest) => Some (String c body, rest)
  | None => None
  end.

(** The characters of a string literal after its opening quote, up to and
    including the closing quote; the result is the denoted string and the
    text that follows.  An escape [\uXXXX] above U+00FF has no counterpart
    in [string]: such text is outside the model and is answered [None]. *)
Fixpoint parseStringBody (s : string) : option (string * string) :=
  match s with
  | EmptyString => None
  | String c s' =>
      if Ascii.eqb c JS.chQUOTE then Some (EmptyString, s')
      else if Ascii.eqb c JS.chBACKSLASH then
        match s' with
        | EmptyString => None
        | String e s'' =>
            match simpleEscape e with
            | Some ch => consResult ch (parseStringBody s'')
            | None =>
                if Ascii.eqb e "u"%char then
                  match s'' with
                  | String h1 (String h2 (String h3 (String h4 rest))) =>
                      match hexValue h1, hexValue h2, hexValue h3, hexValue h4 with
                      | Some 0, Some 0, Some a, Some b =>
                          consResult (ascii_of_nat (16 * a + b))
                            (parseStringBody rest)
                      | _, _, _, _ => None
                      end
                  | _ => None
                  end
                else None
            end
        end
      else if Nat.ltb (nat_of_ascii c) 32 then None
      else consResult c (parseStringBody s')
  end.

(** The longest run of digits at the head of [s], and what follows it. *)
Fixpoint spanDigits (s : string) : string * string :=
  match s with
  | String c s' =>
      if isDigit c then let (d, r) := spanDigits s' in (String c d, r)
      else (EmptyString, s)
  | EmptyString => (EmptyString, s)
  end.

Definition parseFraction (s : string) : option (string * string) :=
  match s with
  | String "."%char s' =>
      match spanDigits s' with
      | (EmptyString, _) => None
      | (d, r) => Some (String "."%char d, r)
      end
  | _ => Some (EmptyString, s)
  end.

Definition parseExponent (s : string) : option (string * string) :=
  match s with
  | String c s' =>
      if (Ascii.eqb c "e"%char || Ascii.eqb c "E"%char)%bool then
        let (sign, s'') :=
          match s' with
          | String g t =>
              if (Ascii.eqb g "+"%char || Ascii.eqb g "-"%char)%bool
              then (String g EmptyString, t) else (EmptyString, s')
          | EmptyString => (EmptyString, s')
          end in
        match spanDigits s'' with
        | (EmptyString, _) => None
        | (d, r) => Some (String c (sign ++ d), r)
        end
      else Some (EmptyString, s)
  | EmptyString => Some (EmptyString, s)
  end.

(** A JSON number; its literal text is kept as it stands. *)
Definition parseNumber (s : string) : option (string * string) :=
  let (sign, s1) :=
    match s with
    | String "-"%char t => (String "-"%char EmptyString, t)
    | _ => (EmptyString, s)
    end in
  match s1 with
  | String c t =>
      if isDigit c then
        let (int, s2) :=
          if Ascii.eqb c "0"%char then (String c EmptyString, t)
          else spanDigits s1 in
        match parseFraction s2 with
        | None => None
        | Some (frac, s3) =>
            match parseExponent s3 with
            | None => None
            | Some (exp, s4) => Some (sign ++ int ++ frac ++ exp, s4)
            end
        end
      else None
  | EmptyString => None
  end.

Definition expectLiteral (lit : string) (v : json) (s : string)
  : option (json * string) :=
  if JS.startsWith s lit
  then Some (v, JS.substring_from (String.length lit) s) else None.

(** Recursive descent over values, array elements and object members.  Two
    units of [fuel] are spent for every character consumed at most. *)
Fixpoint parseValue (fuel : nat) (s : string) : option (json * string) :=
  match fuel with
  | 0 => None
  | S fuel' =>
      match skipWs s with
      | EmptyString => None
      | String c s' =>
          if Ascii.eqb c "{"%char then
            match skipWs s' with
            | String "}"%char r => Some (JObject [], r)
            | _ =>
                match parseMembers fuel' s' with
                | Some (ms, r) => Some (JObject ms, r)
                | None => None
                end
            end
          else if Ascii.eqb c "["%char then
            match skipWs s' with
            | String "]"%char r => Some (JArray [], r)
            | _ =>
                match parseElements fuel' s' with
                | Some (vs, r) => Some (JArray vs, r)
                | None => None
                end
            end
          else if Ascii.eqb c JS.chQUOTE then
            match parseStringBody s' with
            | Some (str, r) => Some (JString str, r)
            | None => None
            end
          else if Ascii.eqb c "t"%char then
            expectLiteral "true" (JBool true) (String c s')
          else if Ascii.eqb c "f"%char then
            expectLiteral "false" (JBool false) (String c s')
          else if Ascii.eqb c "n"%char then
            expectLiteral "null" JNull (String c s')
          else
            match parseNumber (String c s') with
            | Some (lit, r) => Some (JNumber lit, r)
            | None => None
            end
      end
  end
with parseElements (fuel : nat) (s : string) : option (list json * string) :=
  match fuel with
  | 0 => None
  | S fuel' =>
      match parseValue fuel' s with
      | None => None
      | Some (v, r) =>
          match skipWs r with
          | String ","%char r' =>
              match parseElements fuel' r' with
              | Some (vs, r'') => Some (v :: vs, r'')
              | None => None
              end
          | String "]"%char r' => Some ([v], r')
          | _ => None
          end
      end
  end
with parseMembers (fuel : nat) (s : string)
  : option (list (string * json) * string) :=
  match fuel with
  | 0 => None
  | S fuel' =>
      match skipWs s with
      | String c s' =>
          if Ascii.eqb c JS.chQUOTE then
            match parseStringBody s' with
            | None => None
            | Some (key, r) =>
                match skipWs r with
                | String ":"%char r' =>
                    match parseValue fuel' r' with
                    | None => None
                    | Some (v, r'') =>
                        match skipWs r'' with
                        | String ","%char r3 =>
                            match parseMembers fuel' r3 with
                            | Some (ms, r4) => Some ((key, v) :: ms, r4)
                            | None => None
                            end
                        | String "}"%char r3 => Some ([(key, v)], r3)
                        | _ => None
                        end
                    end
                | _ => None
                end
            end
          else None
      | EmptyString => None
      end
  end.

(** [JSON.parse(text)]; [None] is the [SyntaxError] it throws. *)
Definition parse (text : string) : option json :=
  match parseValue (2 * String.length text + 2) text with
  | Some (v, r) =>
      match skipWs r with
      | EmptyString => Some v
      | _ => None
      end
  | None => None
  end.

(** A JavaScript value read off a parsed event: [None] is [undefined]. *)
Definition jsval : Type := option json.

(** The own property [k] of an object; when a key was repeated in the text
    the last occurrence is the one [JSON.parse] kept. *)
Fixpoint lookupMember (ms : list (string * json)) (k : string) : jsval :=
  match ms with
  | [] => None
  | (k', v) :: ms' =>
      match lookupMember ms' k with
      | Some w => Some w
      | None => if String.eqb k' k then Some v else None
      end
  end.

(** [v.k] for a value that is neither [null] nor [undefined], and for a
    name [k] that is not a built-in property of strings or arrays. *)
Definition member (v : json) (k : string) : jsval :=
  match v with
  | JObject ms => lookupMember ms k
  | _ => None
  end.

(** [v.k]: the outer [None] is the [TypeError] thrown on [null] and
    [undefined]. *)
Definition get (v : jsval) (k : string) : option jsval :=
  match v with
  | None | Some JNull => None
  | Some w => Some (member w k)
  end.

(** [v?.k]. *)
Definition getOpt (v : jsval) (k : string) : jsval :=
  match v with
  | None | Some JNull => None
  | Some w => member w k
  end.

(** [v === 'lit']. *)
Definition isString (v : jsval) (lit : string) : bool :=
  match v with
  | Some (JString s) => String.eqb s lit
  | _ => false
  end.

(** A value in a position that the source types as [string], tested for
    truthiness: [Some None] when it is falsy, [Some (Some s)] when it is the
    non-empty string [s].  Values of another type are outside the declared
    payload types: [None]. *)
Definition truthyText (v : jsval) : option (option string) :=
  match v with
  | None | Some JNull | Some (JBool false) => Some None
  | Some (JString s) => if JS.truthy s then Some (Some s) else Some None
  | _ => None
  end.

(** [v || false] in a position typed [boolean]. *)
Definition flagOrFalse (v : jsval) : option bool :=
  match v with
  | None | Some JNull => Some false
  | Some (JBool b) => Some b
  | Some (JString s) => if JS.truthy s then None else Some false
  | _ => None
  end.

(** Truthiness of a value; numbers are left outside the model. *)
Definition truthyValue (v : jsval) : option bool :=
  match v with
  | None | Some JNull => Some false
  | Some (JBool b) => Some b
  | Some (JString s) => Some (JS.truthy s)
  | Some (JNumber _) => None
  | Some (JArray _) | Some (JObject _) => Some true
  end.

Fixpoint allDigits (s : string) : bool :=
  match s with
  | EmptyString => true
  | String c s' => (isDigit c && allDigits s')%bool
  end.

(** [`${v}`]: the text a template literal renders for [v].  Covered are
    strings, booleans, [null], [undefined] and integers of at most fifteen
    digits, which print as they were written. *)
Definition template (v : jsval) : option string :=
  match v with
  | None => Some "undefined"
  | Some JNull => Some "null"
  | Some (JBool true) => Some "true"
  | Some (JBool false) => Some "false"
  | Some (JString s) => Some s
  | Some (JNumber lit) =>
      if (allDigits lit && Nat.leb (String.length lit) 15)%bool
      then Some lit else None
  | _ => None
  end.

End JSON.

(** ** The reducer-driven chat page *)

Module ChatPage.

Inductive Role := user | assistant.

(** [interface Message]; [None] is an absent ([undefined]) optional field. *)
Record Message := mkMessage {
  msg_id : string;
  msg_role : Role;
  msg_content : string;
  msg_agentName : option string;
  msg_isLoading : option bool
}.

(** [interface ChatState]; [messages] is an object used as a map from ids to
    messages.  Ids are taken not to collide with the property names that
    every object inherits from [Object.prototype]. *)
Record ChatState := mkChatState {
  messages : gmap string Message;
  messageOrder : list string;
  isLoading : bool;
  loadingMessageId : option string;
  currentAssistantMessageId : option string
}.

Inductive ChatAction :=
| START_ASSISTANT_MESSAGE (id : string) (agentName : option string)
| APPEND_DELTA (id : string) (delta : string)
| UPDATE_ASSISTANT_JSON_CONTENT (id : string) (agentResponseText : string)
    (overallTaskComplete : bool) (passOffToAgent : option string)
| UPDATE_AGENT_NAME (id : string) (agentName : string)
| COMPLETE_ASSISTANT_MESSAGE (id : string)
| ADD_USER_MESSAGE (payload : Message)
| SET_ERROR (errorContent : string)
| RESET_CHAT.

Definition initialState : ChatState :=
  {| messages := ∅; messageOrder := []; isLoading := false;
     loadingMessageId := None; currentAssistantMessageId := None |}.

(** [x || dflt] for an optional string: [undefined] and the empty string are
    falsy. *)
Definition orDefault (x : option string) (dflt : string) : string :=
  match x with
  | Some s => if JS.truthy s then s else dflt
  | None => dflt
  end.

(** [state.loadingMessageId !== id]. *)
Definition notSameId (x : option string) (id : string) : bool :=
  match x with
  | Some y => negb (String.eqb y id)
  | None => true
  end.

Definition withContent (m : Message) (c : string) : Message :=
  {| msg_id := msg_id m; msg_role := msg_role m; msg_content := c;
     msg_agentName := msg_agentName m; msg_isLoading := msg_isLoading m |}.

Definition withAgentName (m : Message) (a : string) : Message :=
  {| msg_id := msg_id m; msg_role := msg_role m; msg_content := msg_content m;
     msg_agentName := Some a; msg_isLoading := msg_isLoading m |}.

Definition withIsLoading (m : Message) (b : bool) : Message :=
  {| msg_id := msg_id m; msg_role := msg_role m; msg_content := msg_content m;
     msg_agentName := msg_agentName m; msg_isLoading := Some b |}.

Definition withMessages (st : ChatState) (ms : gmap string Message) : ChatState :=
  {| messages := ms; messageOrder := messageOrder st; isLoading := isLoading st;
     loadingMessageId := loadingMessageId st;
     currentAssistantMessageId := currentAssistantMessageId st |}.

(** [chatReducer(state, action)].  [now] is the value that [Date.now()]
    returns while the reducer runs; only [SET_ERROR] reads it. *)
Definition chatReducer (now : N) (state : ChatState) (action : ChatAction)
  : ChatState :=
  match action with
  | ADD_USER_MESSAGE payload =>
      {| messages := <[msg_id payload := payload]> (messages state);
         messageOrder := messageOrder state ++ [msg_id payload];
         isLoading := true;
         loadingMessageId := loadingMessageId state;
         currentAssistantMessageId := currentAssistantMessageId state |}
  | START_ASSISTANT_MESSAGE id agentName =>
      let newMessage :=
        {| msg_id := id; msg_role := assistant; msg_content := EmptyString;
           msg_agentName := Some (orDefault agentName "Assistant");
           msg_isLoading := Some true |} in
      {| messages := <[id := newMessage]> (messages state);
         messageOrder := messageOrder state ++ [id];
         isLoading := isLoading state;
         loadingMessageId := Some id;
         currentAssistantMessageId := Some id |}
  | APPEND_DELTA id delta =>
      match messages state !! id with
      | None => state
      | Some msgToAppend =>
          if notSameId (loadingMessageId state) id then state
          else withMessages state
                 (<[id := withContent msgToAppend
                            (msg_content msgToAppend ++ delta)]>
                    (messages state))
      end
  | UPDATE_ASSISTANT_JSON_CONTENT id agentResponseText _ _ =>
      match messages state !! id with
      | None => state
      | Some msgToUpdate =>
          withMessages state
            (<[id := withContent msgToUpdate agentResponseText]>
               (messages state))
      end
  | UPDATE_AGENT_NAME id agentName =>
      match messages state !! id with
      | None => state
      | Some msgToUpdateAgent =>
          if notSameId (loadingMessageId state) id then state
          else withMessages state
                 (<[id := withAgentName msgToUpdateAgent agentName]>
                    (messages state))
      end
  | COMPLETE_ASSISTANT_MESSAGE id =>
      if (notSameId (loadingMessageId state) id
          && notSameId (currentAssistantMessageId state) id)%bool
      then state
      else
        let updatedMessages :=
          match messages state !! id with
          | Some completedMsg =>
              <[id := withIsLoading completedMsg false]> (messages state)
          | None => messages state
          end in
        {| messages := updatedMessages;
           messageOrder := messageOrder state;
           isLoading := false;
           loadingMessageId := None;
           currentAssistantMessageId := None |}
  | SET_ERROR errorContent =>
      let errorId := "error-" ++ JS.decimal now in
      let errorMessage :=
        {| msg_id := errorId; msg_role := assistant;
           msg_content := "Error: " ++ errorContent;
           msg_agentName := Some "System Error";
           msg_isLoading := None |} in
      {| messages := <[errorId := errorMessage]> (messages state);
         messageOrder := messageOrder state ++ [errorId];
         isLoading := false;
         loadingMessageId := None;
         currentAssistantMessageId := None |}
  | RESET_CHAT => initialState
  end.

(** Dispatching a batch of actions, all reduced at clock reading [now]. *)
Definition dispatchAll (now : N) (state : ChatState) (actions : list ChatAction)
  : ChatState :=
  foldl (chatReducer now) state actions.

(** A run of the reducer over time-stamped actions. *)
Definition runReducer (state : ChatState) (actions : list (N * ChatAction))
  : ChatState :=
  foldl (fun st a => chatReducer (fst a) st (snd a)) state actions.

End ChatPage.

(** ** The read loop of [handleSendMessage] *)

Module SendMessage.

Import ChatPage.
Import JSON.

(** What handling one block leaves behind: the two variables the loop
    carries ([activeMessageId], and the ref [currentAssistantJsonBuffer]),
    the actions dispatched in order, whether the block was reported through
    the [console.error] of the catch-all around the event handling, and
    whether the [break] of the error branch was reached. *)
Record Outcome := mkOutcome {
  out_activeMessageId : string;
  out_jsonBuffer : string;
  out_dispatched : list ChatAction;
  out_reported : bool;
  out_break : bool
}.

Definition quiet (activeMessageId jsonBuffer : string) : Outcome :=
  mkOutcome activeMessageId jsonBuffer [] false false.

Definition reported (activeMessageId jsonBuffer : string) : Outcome :=
  mkOutcome activeMessageId jsonBuffer [] true false.

(** The attempt to read [agent_response_text] off the accumulated buffer,
    shared by the delta branch and the completion branch: a buffer that does
    not parse, or parses to a value without the field, dispatches nothing. *)
Definition extractUpdate (id buffer : string) : option (list ChatAction) :=
  match parse buffer with
  | None => Some []
  | Some parsedBuffer =>
      match get (Some parsedBuffer) "agent_response_text" with
      | None => Some []
      | Some None => Some []
      | Some (Some (JString text)) =>
          done ← flagOrFalse (member parsedBuffer "overall_task_complete");
          handoff ← truthyText (member parsedBuffer "pass_off_to_agent");
          Some [UPDATE_ASSISTANT_JSON_CONTENT id text done handoff]
      | Some (Some _) => None
      end
  end.

(** The text shown for a [code_validation_result] event. *)
Definition validationText (data : jsval) : option string :=
  let status := getOpt data "status" in
  display ← (if isString status "invalid"
             then truthyText (getOpt data "display_message") else Some None);
  match display with
  | Some text => Some text
  | None =>
      if isString status "valid" then
        code ← template (getOpt data "raw_code");
        let valText := "Code: " ++ code ++ " - Status: valid." in
        let details := getOpt data "details" in
        hasDetails ← truthyValue details;
        if hasDetails : bool then
          ty ← template (getOpt details "code_type");
          team ← template (getOpt details "team_name");
          age ← template (getOpt details "age_group");
          from ← template (getOpt details "season_start_year");
          to ← template (getOpt details "season_end_year");
          Some (valText ++ " Type: " ++ ty ++ ", Team: " ++ team ++ ", Age: u"
                  ++ age ++ ", Season: " ++ from ++ "-" ++ to ++ ".")
        else Some valText
      else
        reason ← (if isString status "invalid"
                  then truthyText (getOpt data "reason") else Some None);
        match reason with
        | Some why =>
            code ← template (getOpt data "raw_code");
            Some ("Code: " ++ code ++ " - Status: invalid. Reason: " ++ why ++ ".")
        | None => Some "Code validation result received."
        end
  end.

(** The chain of [if]/[else if] on [parsedEvent.event_type].  The outer
    [None] marks a payload outside the declared types; a [TypeError] raised
    by a property read lands in the catch-all and is reported. *)
Definition handleEvent (activeMessageId jsonBuffer : string) (parsedEvent : json)
  : option Outcome :=
  match parsedEvent with
  | JNull => Some (reported activeMessageId jsonBuffer)
  | _ =>
  let event_type := member parsedEvent "event_type" in
  let data := member parsedEvent "data" in
  if isString event_type "START_ASSISTANT_MESSAGE" then
    match get data "id" with
    | None => Some (reported activeMessageId jsonBuffer)
    | Some (Some (JString id)) =>
        agent ← truthyText (getOpt data "agent_name");
        Some (mkOutcome id EmptyString
                [START_ASSISTANT_MESSAGE id (Some (default "Assistant" agent))]
                false false)
    | Some _ => None
    end
  else
    delta ← (if isString event_type "RawResponsesStreamEvent"
             then truthyText (getOpt data "delta") else Some None);
    match delta with
    | Some d =>
        if JS.truthy activeMessageId then
          let buffer := jsonBuffer ++ d in
          acts ← extractUpdate activeMessageId buffer;
          Some (mkOutcome activeMessageId buffer acts false false)
        else Some (quiet activeMessageId jsonBuffer)
    | None =>
        name ← (if isString event_type "AgentUpdatedStreamEvent"
                then truthyText (getOpt data "agent_name") else Some None);
        match name with
        | Some n =>
            if JS.truthy activeMessageId then
              Some (mkOutcome activeMessageId jsonBuffer
                      [UPDATE_AGENT_NAME activeMessageId n] false false)
            else Some (quiet activeMessageId jsonBuffer)
        | None =>
            if isString event_type "COMPLETE_ASSISTANT_MESSAGE" then
              if JS.truthy activeMessageId then
                match get data "id" with
                | None => Some (reported activeMessageId jsonBuffer)
                | Some id =>
                    if isString id activeMessageId then
                      acts ← extractUpdate activeMessageId jsonBuffer;
                      Some (mkOutcome EmptyString EmptyString
                              (acts ++ [COMPLETE_ASSISTANT_MESSAGE activeMessageId])
                              false false)
                    else Some (quiet activeMessageId jsonBuffer)
                end
              else Some (quiet activeMessageId jsonBuffer)
            else if isString event_type "code_validation_result" then
              if JS.truthy activeMessageId then
                valText ← validationText data;
                Some (mkOutcome activeMessageId jsonBuffer
                        [UPDATE_ASSISTANT_JSON_CONTENT activeMessageId valText
                           true None] false false)
              else Some (quiet activeMessageId jsonBuffer)
            else if (isString event_type "ServerError"
                     || isString event_type "AgentErrorEvent")%bool then
              err ← truthyText (getOpt data "error");
              Some (mkOutcome activeMessageId jsonBuffer
                      (SET_ERROR (default "Unknown backend error" err)
                       :: (if JS.truthy activeMessageId
                           then [COMPLETE_ASSISTANT_MESSAGE activeMessageId]
                           else []))
                      false true)
            else Some (quiet activeMessageId jsonBuffer)
        end
    end
  end.

(** The body of the inner loop once [rawEventData] has been cut out. *)
Definition handleBlock (activeMessageId jsonBuffer rawEventData : string)
  : option Outcome :=
  if JS.startsWith rawEventData "data: " then
    let jsonDataString := JS.trim (JS.substring_from 5 rawEventData) in
    if (JS.truthy jsonDataString
        && negb (String.eqb (JS.toUpperCase jsonDataString) "[DONE]"))%bool
    then
      match parse jsonDataString with
      | None => Some (reported activeMessageId jsonBuffer)
      | Some parsedEvent => handleEvent activeMessageId jsonBuffer parsedEvent
      end
    else Some (quiet activeMessageId jsonBuffer)
  else Some (quiet activeMessageId jsonBuffer).

(** *** The inner loop: cutting blocks out of [fetchBuffer] *)

(** The loop condition: [indexOf('\n\n')], and only when that finds nothing
    [indexOf('\r\n\r\n')]. *)
Definition findBoundary (fetchBuffer : string) : option nat :=
  match JS.indexOf fetchBuffer JS.LFLF with
  | Some boundaryIdx => Some boundaryIdx
  | None => JS.indexOf fetchBuffer JS.CRLFCRLF
  end.

(** One cut: the trimmed block before the boundary, and the buffer that is
    left after the delimiter. *)
Definition cutBlock (fetchBuffer : string) : option (string * string) :=
  match findBoundary fetchBuffer with
  | None => None
  | Some boundaryIdx =>
      let messageEndIdx :=
        boundaryIdx
        + (if JS.startsWith (JS.substring_from boundaryIdx fetchBuffer) JS.CRLFCRLF
           then 4 else 2) in
      Some (JS.trim (JS.substring_upto boundaryIdx fetchBuffer),
            JS.substring_from messageEndIdx fetchBuffer)
  end.

(** The variables of one run of the read loop. *)
Record Loop := mkLoop {
  fetchBuffer : string;
  activeMessageId : string;
  currentAssistantJsonBuffer : string
}.

(** What a stretch of the loop did: the blocks it cut, the actions it
    dispatched, and how many blocks it reported as undecodable. *)
Record Trace := mkTrace {
  blocks : list string;
  dispatched : list ChatAction;
  reports : nat
}.

Definition noTrace : Trace := mkTrace [] [] 0.

Definition joinTrace (a b : Trace) : Trace :=
  mkTrace (blocks a ++ blocks b) (dispatched a ++ dispatched b)
          (reports a + reports b).

(** The inner [while]: cut and handle blocks until no delimiter is left or
    the error branch breaks out.  Every turn shortens [fetchBuffer], so
    [fuel] at least its length is never used up ([drain_fuel] below). *)
Fixpoint drain (fuel : nat) (l : Loop) : option (Loop * Trace) :=
  match fuel with
  | 0 => Some (l, noTrace)
  | S fuel' =>
      match cutBlock (fetchBuffer l) with
      | None => Some (l, noTrace)
      | Some (rawEventData, rest) =>
          o ← handleBlock (activeMessageId l) (currentAssistantJsonBuffer l)
                rawEventData;
          let l' := mkLoop rest (out_activeMessageId o) (out_jsonBuffer o) in
          let t := mkTrace [rawEventData] (out_dispatched o)
                     (if out_reported o then 1 else 0) in
          if out_break o then Some (l', t)
          else
            r ← drain fuel' l';
            Some (fst r, joinTrace t (snd r))
      end
  end.

(** One turn of the outer loop on a chunk: append the decoded text, then
    drain. *)
Definition onChunk (l : Loop) (text : string) : option (Loop * Trace) :=
  let l' := mkLoop (fetchBuffer l ++ text) (activeMessageId l)
              (currentAssistantJsonBuffer l) in
  drain (String.length (fetchBuffer l')) l'.

(** The turn on which [reader.read()] reports [done]. *)
Definition onDone (l : Loop) : list ChatAction :=
  if JS.truthy (activeMessageId l)
  then [COMPLETE_ASSISTANT_MESSAGE (activeMessageId l)] else [].

(** The chunks of a response body, each with the clock reading at which its
    actions are reduced. *)
Fixpoint readLoop (chunks : list (N * string)) (doneAt : N)
    (l : Loop) (state : ChatState) : option (Loop * ChatState) :=
  match chunks with
  | [] => Some (l, dispatchAll doneAt state (onDone l))
  | (now, text) :: chunks' =>
      r ← onChunk l text;
      readLoop chunks' doneAt (fst r)
        (dispatchAll now state (dispatched (snd r)))
  end.

(** The blocks cut while reading [chunks], in order. *)
Fixpoint blocksRead (chunks : list string) (l : Loop) : option (list string) :=
  match chunks with
  | [] => Some []
  | text :: chunks' =>
      r ← onChunk l text;
      bs ← blocksRead chunks' (fst r);
      Some (blocks (snd r) ++ bs)%list
  end.

(** Evaluates the next turn of the outer loop in a goal about a run. *)
Ltac run_chunk :=
  match goal with
  | |- context [onChunk ?l ?t] =>
      let r := eval vm_compute in (onChunk l t) in
      change (onChunk l t) with r;
      cbn [mbind option_bind fst snd dispatched]
  end.

(** *** Submitting *)

(** What [fetch] and the reader deliver; a read that fails after the first
    chunk is not modelled. *)
Inductive Response :=
| HttpError (status : N)
| NullBody
| FetchFailed (message : string)
| Body (chunks : list (N * string)) (doneAt : N).

(** [handleSendMessage(userInput)] called at clock reading [now] from a
    render that shows [state]; [jsonBuffer] is what the ref
    [currentAssistantJsonBuffer] holds.  The result is the state after all
    the dispatches of the call. *)
Definition handleSendMessage (now : N) (state : ChatState) (jsonBuffer : string)
    (userInput : string) (response : Response) (failedAt : N)
  : option ChatState :=
  if isLoading state then Some state
  else
    let newUserMessage :=
      {| msg_id := "user-" ++ JS.decimal now; msg_role := user;
         msg_content := userInput; msg_agentName := None;
         msg_isLoading := None |} in
    let state1 := chatReducer now state (ADD_USER_MESSAGE newUserMessage) in
    match response with
    | HttpError status =>
        Some (chatReducer failedAt state1
                (SET_ERROR ("HTTP error! status: " ++ JS.decimal status)))
    | NullBody =>
        Some (chatReducer failedAt state1 (SET_ERROR "Response body is null"))
    | FetchFailed message =>
        Some (chatReducer failedAt state1 (SET_ERROR message))
    | Body chunks doneAt =>
        r ← readLoop chunks doneAt (mkLoop EmptyString EmptyString jsonBuffer)
              state1;
        Some (snd r)
    end.

End SendMessage.

(** ** The earlier read loop of the chat page, which appends deltas *)

Module SendMessageAppend.

Import ChatPage.
Import JSON.

(** The body of the inner loop of the append-only revision of
    [handleSendMessage]: every action targets the assistant message that the
    call created before it opened the stream.  The result is the list of
    actions and whether the catch-all reported the block. *)
Definition handleBlock (assistantMessageIdForThisStream messageBlock : string)
  : option (list ChatAction * bool) :=
  if JS.startsWith messageBlock "data: " then
    let jsonData := JS.trim (JS.substring_from 6 messageBlock) in
    if (JS.truthy jsonData
        && negb (String.eqb (JS.toUpperCase jsonData) "[DONE]"))%bool
    then
      match parse jsonData with
      | None => Some ([], true)
      | Some JNull => Some ([], true)
      | Some parsedData =>
          let event_type := member parsedData "event_type" in
          let data := member parsedData "data" in
          delta ← (if isString event_type "RawResponsesStreamEvent"
                   then truthyText (getOpt data "delta") else Some None);
          match delta with
          | Some d =>
              Some ([APPEND_DELTA assistantMessageIdForThisStream d], false)
          | None =>
              name ← (if isString event_type "AgentUpdatedStreamEvent"
                      then truthyText (getOpt data "agent_name") else Some None);
              match name with
              | Some n =>
                  Some ([UPDATE_AGENT_NAME assistantMessageIdForThisStream n],
                        false)
              | None =>
                  if (isString event_type "ServerError"
                      || isString event_type "AgentErrorEvent")%bool then
                    err ← truthyText (getOpt data "error");
                    Some ([SET_ERROR (default "Unknown backend error" err)],
                          false)
                  else Some ([], false)
              end
          end
      end
    else Some ([], false)
  else Some ([], false).

End SendMessageAppend.

(** ** The [useState]-driven chat component *)

Module ChatInterface.

(** The head of the loop of [processStreamChunk]: both delimiters are looked
    up, and when both are found the one at the lower index is taken.  The
    result is [boundaryIndex] and [delimiterLength]. *)
Definition nextBoundary (remainingBuffer : string) : option (nat * nat) :=
  let newlineIndex := JS.indexOf remainingBuffer JS.LFLF in
  let crlfIndex := JS.indexOf remainingBuffer JS.CRLFCRLF in
  match newlineIndex, crlfIndex with
  | Some n, Some c => if Nat.ltb n c then Some (n, 2) else Some (c, 4)
  | Some n, None => Some (n, 2)
  | None, Some c => Some (c, 4)
  | None, None => None
  end.

(** One cut: the trimmed [messageBlock], and the buffer left after the
    delimiter. *)
Definition cutBlock (remainingBuffer : string) : option (string * string) :=
  match nextBoundary remainingBuffer with
  | None => None
  | Some (boundaryIndex, delimiterLength) =>
      Some (JS.trim (JS.substring_upto boundaryIndex remainingBuffer),
            JS.substring_from (boundaryIndex + delimiterLength) remainingBuffer)
  end.

Section ProcessStreamChunk.

(** The component state, and what the body of the loop does with a block
    that is not empty: it picks the last [data:] line, parses it and queues
    the update of the messages. *)
Context {St : Type}.
Variable processBlock : string -> St -> St.

(** The [while (true)] of [processStreamChunk]; empty blocks are skipped.
    Every turn shortens the buffer, so [fuel] at least its length is never
    used up ([processLoop_fuel] below). *)
Fixpoint processLoop (fuel : nat) (remainingBuffer : string) (st : St)
  : string * St :=
  match fuel with
  | 0 => (remainingBuffer, st)
  | S fuel' =>
      match cutBlock remainingBuffer with
      | None => (remainingBuffer, st)
      | Some (messageBlock, rest) =>
          if JS.truthy messageBlock
          then processLoop fuel' rest (processBlock messageBlock st)
          else processLoop fuel' rest st
      end
  end.

(** [processStreamChunk(buffer, ref)]: the unprocessed rest of the buffer,
    and the component state after the blocks found. *)
Definition processStreamChunk (buffer : string) (st : St) : string * St :=
  processLoop (String.length buffer) buffer st.

(** The read loop of [handleSubmit] up to the turn that reports [done]:
    every chunk is appended to the buffer and the buffer is processed. *)
Fixpoint feedChunks (chunks : list string) (buffer : string) (st : St)
  : string * St :=
  match chunks with
  | [] => (buffer, st)
  | decodedChunk :: chunks' =>
      let r := processStreamChunk (buffer ++ decodedChunk) st in
      feedChunks chunks' (fst r) (snd r)
  end.

(** The turn that reports [done]: what is left in the buffer is processed
    once more behind a delimiter, unless it trims to nothing. *)
Definition onDone (buffer : string) (st : St) : St :=
  if JS.truthy (JS.trim buffer)
  then snd (processStreamChunk (buffer ++ JS.LFLF) st)
  else st.

(** The whole read loop, from an empty buffer. *)
Definition readLoop (chunks : list string) (st : St) : St :=
  let r := feedChunks chunks EmptyString st in
  onDone (fst r) (snd r).

End ProcessStreamChunk.

(** The blocks that [processStreamChunk] hands to the body of its loop. *)
Definition collect (messageBlock : string) (seen : list string) : list string :=
  seen ++ [messageBlock].

(** *** Submitting *)

(** [interface Message] of this component. *)
Record Message := mkMessage {
  msg_id : string;
  msg_role : ChatPage.Role;
  msg_content : string;
  msg_agentName : option string
}.



End ChatInterface.

(** ** The exchanges the facts below are stated on *)

Module Scenario.

Import ChatPage.

(** The four blocks of an answer to the message [a1], as they arrive on the
    wire; the two deltas carry the halves of one JSON object. *)
Definition frameStart : string :=
  JS.wire "data: {'event_type':'START_ASSISTANT_MESSAGE','data':{'id':'a1'}}".
Definition frameDelta1 : string :=
  JS.wire "data: {'event_type':'RawResponsesStreamEvent','data':{'delta':'{\'agent_response_text\': \'Here'}}".
Definition frameDelta2 : string :=
  JS.wire "data: {'event_type':'RawResponsesStreamEvent','data':{'delta':' are 3 players\'}'}}".
Definition frameComplete : string :=
  JS.wire "data: {'event_type':'COMPLETE_ASSISTANT_MESSAGE','data':{'id':'a1'}}".

(** A delta that carries a whole answer, and an error event. *)
Definition frameAnswer : string :=
  JS.wire "data: {'event_type':'RawResponsesStreamEvent','data':{'delta':'{\'agent_response_text\': \'Hi\'}'}}".
Definition frameError : string :=
  JS.wire "data: {'event_type':'ServerError','data':{'error':'boom'}}".

(** The loop variables at the start of a call. *)
Definition freshLoop : SendMessage.Loop :=
  SendMessage.mkLoop EmptyString EmptyString EmptyString.

(** The page after the user sent [show u9s players] at clock reading 1000:
    the request is open and no block has arrived. *)
Definition submittedState : ChatState :=
  chatReducer 1000 initialState
    (ADD_USER_MESSAGE
       {| msg_id := "user-1000"; msg_role := user;
          msg_content := "show u9s players"; msg_agentName := None;
          msg_isLoading := None |}).

(** The page while [a1] is streaming and shows [Here are]. *)
Definition streamingState : ChatState :=
  dispatchAll 1001 submittedState
    [START_ASSISTANT_MESSAGE "a1" (Some "Assistant");
     UPDATE_ASSISTANT_JSON_CONTENT "a1" "Here are" false None].

(** A page on which [a1] has been completed. *)
Definition completedState : ChatState :=
  dispatchAll 1002 streamingState [COMPLETE_ASSISTANT_MESSAGE "a1"].

(** The id an action appends to [messageOrder], if it appends one. *)
Definition introduces (now : N) (action : ChatAction) : option string :=
  match action with
  | ADD_USER_MESSAGE payload => Some (msg_id payload)
  | START_ASSISTANT_MESSAGE id _ => Some id
  | SET_ERROR _ => Some ("error-" ++ JS.decimal now)
  | _ => None
  end.

(** A run in which every id that an action appends is new to
    [messageOrder] at that point. *)
Fixpoint freshRun (state : ChatState) (actions : list (N * ChatAction)) : Prop :=
  match actions with
  | [] => True
  | (now, action) :: rest =>
      match introduces now action with
      | Some id => id ∉ messageOrder state
      | None => True
      end
      /\ freshRun (chatReducer now state action) rest
  end.



End Scenario.

(** ** What the page shows *)

Module ChatPageView.

Import ChatPage.

(** [messageOrder.map(id => messages[id]).filter(Boolean)]. *)
Definition orderedMessages (state : ChatState) : list Message :=
  omap (fun id => messages state !! id) (messageOrder state).


(** [content.split('\n')]: the pieces between line feeds. *)
Fixpoint splitLines (s : string) : list string :=
  match s with
  | EmptyString => [EmptyString]
  | String c s' =>
      if Ascii.eqb c JS.chLF then EmptyString :: splitLines s'
      else match splitLines s' with
           | l :: ls => String c l :: ls
           | [] => [String c EmptyString]
           end
  end.

(** The text of rendered lines with a line break between neighbours, as the
    [<br />] elements lay it out. *)
Fixpoint joinLines (ls : list string) : string :=
  match ls with
  | [] => EmptyString
  | [l] => l
  | l :: ls' => l ++ String JS.chLF (joinLines ls')
  end.

(** What [MessageList] renders for one message. *)
Inductive Bubble :=
| UserBubble (content : string)
| AssistantBubble (thinking : bool) (lines : list string) (cursor : bool)
    (copyButton : bool).

Definition isTrue (b : option bool) : bool :=
  match b with Some true => true | _ => false end.

Definition sameId (x : option string) (id : string) : bool :=
  match x with Some y => String.eqb y id | None => false end.

(** The body of [messages.map((msg) => ...)] in [MessageList]: the
    placeholder while a loading message is empty, else the lines of the
    content and the cursor on the loading message; below it the copy button
    for a message that is not loading and not empty. *)
Definition renderMessage (loadingMessageId : option string) (msg : Message)
  : Bubble :=
  match msg_role msg with
  | user => UserBubble (msg_content msg)
  | assistant =>
      let thinking :=
        (isTrue (msg_isLoading msg) && negb (JS.truthy (msg_content msg)))%bool in
      AssistantBubble thinking
        (if thinking then [] else splitLines (msg_content msg))
        (negb thinking && sameId loadingMessageId (msg_id msg)
         && JS.truthy (msg_content msg))%bool
        (negb (isTrue (msg_isLoading msg)) && JS.truthy (msg_content msg))%bool
  end.

(** [<ChatMessages messages={orderedMessages}
    loadingMessageId={loadingMessageId} />]. *)
Definition render (state : ChatState) : list Bubble :=
  renderMessage (loadingMessageId state) <$> orderedMessages state.

End ChatPageView.

(** ** The reducer of the append-only revision *)

Module ChatPageAppend.

Import ChatPage.

(** [chatReducer] of the earlier revision of the page.  Its action type has
    no [UPDATE_ASSISTANT_JSON_CONTENT], which falls to [default] here, and
    its completion tests [loadingMessageId] alone. *)
Definition chatReducer (now : N) (state : ChatState) (action : ChatAction)
  : ChatState :=
  match action with
  | UPDATE_ASSISTANT_JSON_CONTENT _ _ _ _ => state
  | COMPLETE_ASSISTANT_MESSAGE id =>
      if notSameId (loadingMessageId state) id then state
      else
        let updatedMessages :=
          match messages state !! id with
          | Some completedMsg =>
              <[id := withIsLoading completedMsg false]> (messages state)
          | None => messages state
          end in
        {| messages := updatedMessages;
           messageOrder := messageOrder state;
           isLoading := false;
           loadingMessageId := None;
           currentAssistantMessageId := None |}
  | _ => ChatPage.chatReducer now state action
  end.

Definition runReducer (state : ChatState) (actions : list (N * ChatAction))
  : ChatState :=
  foldl (fun st a => chatReducer (fst a) st (snd a)) state actions.

End ChatPageAppend.

(** ** Decoding a block and updating the messages in the chat component *)

Module ChatInterfaceBlocks.

Import JSON.
Import ChatInterface.

(** The [forEach] over [messageBlock.split('\n')]: the value of the last
    line that, trimmed, starts with [data:]; [None] is [null]. *)
Definition eventJsonString (messageBlock : string) : option string :=
  foldl (fun found line =>
           let cleanedLine := JS.trim line in
           if JS.startsWith cleanedLine "data:"
           then Some (JS.trim (JS.substring_from 5 cleanedLine))
           else found)
    None (ChatPageView.splitLines messageBlock).

(** [messages.findIndex(msg => msg.id === ref.current &&
    msg.role === 'assistant')], counted from [i]. *)
Fixpoint findIndexFrom (i : nat) (current : string) (msgs : list Message)
  : option nat :=
  match msgs with
  | [] => None
  | msg :: msgs' =>
      if (String.eqb (msg_id msg) current
          && match msg_role msg with
             | ChatPage.assistant => true
             | ChatPage.user => false
             end)%bool
      then Some i
      else findIndexFrom (S i) current msgs'
  end.

(** The index that [getOrCreateTargetMessage] finds; a ref that is [null]
    or empty is not looked up. *)
Definition targetIndex (ref : option string) (msgs : list Message) : option nat :=
  match ref with
  | Some current =>
      if JS.truthy current then findIndexFrom 0 current msgs else None
  | None => None
  end.

(** What one run of the updater handed to [setMessages] leaves: the new
    array, the ref, and the values given to [setIsLoading] and
    [setLastAgentName] if they were called. *)
Record Update := mkUpdate {
  upd_messages : list Message;
  upd_ref : option string;
  upd_setIsLoading : option bool;
  upd_setLastAgentName : option string
}.

Definition withContent (m : Message) (c : string) : Message :=
  mkMessage (msg_id m) (msg_role m) c (msg_agentName m).

Definition withAgentName (m : Message) (a : string) : Message :=
  mkMessage (msg_id m) (msg_role m) (msg_content m) (Some a).

(** The updater [prevMessages => ...] for the parsed event [parsedData],
    run when the ref holds [ref].  [now] is the reading of [Date.now()] for
    the id of a new message, [random] the text
    [Math.random().toString(16).slice(2)], [later] the reading for the id
    of an error message, [lastAgentName] the state the callback closed
    over.  The outer [None] marks the [TypeError] of reading [event_type]
    off [null] and payloads outside the declared types. *)
Definition updateMessages (now later : N) (random : string)
    (lastAgentName : option string) (ref : option string)
    (prevMessages : list Message) (parsedData : json) : option Update :=
  match parsedData with
  | JNull => None
  | _ =>
      let found :=
        match targetIndex ref prevMessages with
        | Some i =>
            match prevMessages !! i with
            | Some m => Some (i, m)
            | None => None
            end
        | None => None
        end in
      let newMsgId := "assistant-" ++ JS.decimal now ++ "-" ++ random in
      let '(idx, targetMessage, ref1, updatedMessages) :=
        match found with
        | Some (i, m) => (i, m, ref, prevMessages)
        | None =>
            let newMsg :=
              mkMessage newMsgId ChatPage.assistant EmptyString
                (Some (ChatPage.orDefault lastAgentName "Assistant")) in
            (length prevMessages, newMsg, Some newMsgId,
             (prevMessages ++ [newMsg])%list)
        end in
      let event_type := member parsedData "event_type" in
      let data := member parsedData "data" in
      if isString event_type "RawResponsesStreamEvent" then
        delta ← truthyText (getOpt data "delta");
        let target' :=
          match delta with
          | Some d => withContent targetMessage (msg_content targetMessage ++ d)
          | None => targetMessage
          end in
        Some (mkUpdate (<[idx := target']> updatedMessages) ref1 None None)
      else if (isString event_type "RunItemStreamEvent"
               || isString event_type "AgentUpdatedStreamEvent")%bool then
        name ← truthyText (getOpt data "agent_name");
        match name with
        | Some n =>
            Some (mkUpdate (<[idx := withAgentName targetMessage n]> updatedMessages)
                    ref1 None (Some n))
        | None => Some (mkUpdate updatedMessages ref1 None None)
        end
      else if isString event_type "FinalOutputEvent" then
        Some (mkUpdate updatedMessages None (Some false) None)
      else if (isString event_type "ServerError"
               || isString event_type "AgentErrorEvent")%bool then
        err ← truthyText (getOpt data "error");
        let errorMsg :=
          mkMessage ("error-" ++ JS.decimal later) ChatPage.assistant
            ("Backend error: " ++ default "Unknown error" err)
            (Some "System Error") in
        Some (mkUpdate (updatedMessages ++ [errorMsg])%list None (Some false) None)
      else Some (mkUpdate updatedMessages ref1 None None)
  end.

End ChatInterfaceBlocks.

(** ** Kinds of actions and runs *)

Module Runs.

Import ChatPage.

(** The three actions that change a message in place. *)
Definition updates (action : ChatAction) : bool :=
  match action with
  | APPEND_DELTA _ _ | UPDATE_ASSISTANT_JSON_CONTENT _ _ _ _
  | UPDATE_AGENT_NAME _ _ => true
  | _ => false
  end.

Definition isReset (action : ChatAction) : bool :=
  match action with RESET_CHAT => true | _ => false end.

Definition isJsonUpdate (action : ChatAction) : bool :=
  match action with
  | UPDATE_ASSISTANT_JSON_CONTENT _ _ _ _ => true
  | _ => false
  end.

(** The deltas of a stream as [APPEND_DELTA] actions for the message [id]. *)
Definition appends (id : string) (deltas : list (N * string))
  : list (N * ChatAction) :=
  (fun d => (fst d, APPEND_DELTA id (snd d))) <$> deltas.


(** A bubble does not show the streaming cursor and the copy button at
    once. *)
Definition cursorXorCopy (b : ChatPageView.Bubble) : bool :=
  match b with
  | ChatPageView.UserBubble _ => true
  | ChatPageView.AssistantBubble _ _ cursor copyButton =>
      negb (cursor && copyButton)
  end.

(** The ids listed in [messageOrder] are the keys of [messages]. *)
Definition listed (st : ChatState) : Prop :=
  forall id, id ∈ messageOrder st <-> is_Some (messages st !! id).

(** Every message is stored under its own id. *)
Definition filed (st : ChatState) : Prop :=
  forall id m, messages st !! id = Some m -> msg_id m = id.

(** The loading message, when there is one, is stored and flagged as
    loading. *)
Definition loadingIsMarked (st : ChatState) : Prop :=
  forall id, loadingMessageId st = Some id ->
             exists m, messages st !! id = Some m /\ msg_isLoading m = Some true.


(** The text of the error that a response without a readable body makes
    [handleSendMessage] throw. *)
Definition failure (response : SendMessage.Response) : option string :=
  match response with
  | SendMessage.HttpError status =>
      Some ("HTTP error! status: " ++ JS.decimal status)
  | SendMessage.NullBody => Some "Response body is null"
  | SendMessage.FetchFailed message => Some message
  | SendMessage.Body _ _ => None
  end.

(** The chunks of a body put together. *)
Definition wholeText (chunks : list (N * string)) : string :=
  foldr String.append EmptyString (snd <$> chunks).

End Runs.

(** * Facts *)

(** ** Strings *)

Module JSFacts.

Import JS.

Lemma append_nil (t : string) : EmptyString ++ t = t.
Proof. reflexivity. Qed.

Lemma append_cons (c : ascii) (s t : string) :
  String c s ++ t = String c (s ++ t).
Proof. reflexivity. Qed.

Lemma length_append (s t : string) :
  String.length (s ++ t) = String.length s + String.length t.
Proof.
  induction s as [|c s IH]; [done |].
  rewrite append_cons. simpl. by rewrite IH.
Qed.

Lemma append_empty_r (s : string) : s ++ EmptyString = s.
Proof.
  induction s as [|c s IH]; [done |]. rewrite append_cons. by rewrite IH.
Qed.

Lemma append_assoc (s t u : string) : (s ++ t) ++ u = s ++ (t ++ u).
Proof.
  induction s as [|c s IH]; [done |]. rewrite !append_cons. by rewrite IH.
Qed.

Lemma length_substring_from (n : nat) (s : string) :
  String.length (substring_from n s) = String.length s - n.
Proof.
  revert s; induction n as [|n IH]; intros [|c s]; simpl; auto with lia.
Qed.

Lemma substring_from_append (n : nat) (s t : string) :
  n <= String.length s ->
  substring_from n (s ++ t) = substring_from n s ++ t.
Proof.
  revert s; induction n as [|n IH]; intros [|c s] Hn;
    rewrite ?append_cons; simpl in *; try done; try lia.
  apply IH; lia.
Qed.

Lemma substring_upto_append (n : nat) (s t : string) :
  n <= String.length s ->
  substring_upto n (s ++ t) = substring_upto n s.
Proof.
  revert s; induction n as [|n IH]; intros [|c s] Hn;
    rewrite ?append_cons; simpl in *; try done; try lia.
  rewrite IH; [done | lia].
Qed.

Lemma substring_from_add (n m : nat) (s : string) :
  substring_from (n + m) s = substring_from m (substring_from n s).
Proof.
  revert s; induction n as [|n IH]; intros s; simpl; [done |].
  destruct s as [|c s]; [by destruct m | apply IH].
Qed.

Lemma startsWith_length (s p : string) :
  startsWith s p = true -> String.length p <= String.length s.
Proof.
  revert s; induction p as [|a p IH]; intros [|b s] H; simpl in *;
    try lia; try done.
  destruct (Ascii.eqb a b); [|done]. apply IH in H. lia.
Qed.

Lemma startsWith_append (s t p : string) :
  String.length p <= String.length s ->
  startsWith (s ++ t) p = startsWith s p.
Proof.
  revert s; induction p as [|a p IH]; intros [|b s] H;
    rewrite ?append_cons; simpl in *; try lia; try done.
  destruct (Ascii.eqb a b); [|done]. apply IH. lia.
Qed.

Lemma startsWith_cons_inv (s p : string) (a : ascii) :
  startsWith s (String a p) = true ->
  exists s', s = String a s' /\ startsWith s' p = true.
Proof.
  destruct s as [|b s]; simpl; [done |].
  destruct (Ascii.eqb_spec a b) as [<-|]; [| done]. eauto.
Qed.

Lemma first_true (P : nat -> bool) (i : nat) :
  (forall j, j < i -> P j <> true)
  \/ exists k, k < i /\ P k = true /\ forall j, j < k -> P j <> true.
Proof.
  induction i as [|i [IH | (k & Hk & HP & Hmin)]].
  - left. intros j Hj. lia.
  - destruct (P i) eqn:E.
    + right. exists i. auto with lia.
    + left. intros j Hj. destruct (decide (j = i)) as [-> | Hne];
        [congruence | apply IH; lia].
  - right. exists k. auto with lia.
Qed.

Lemma least_true (P : nat -> bool) (i : nat) :
  P i = true ->
  exists k, k <= i /\ P k = true /\ forall j, j < k -> P j <> true.
Proof.
  intros Hi. destruct (first_true P i) as [Hmin | (k & Hk & HP & Hmin)].
  - exists i. auto with lia.
  - exists k. auto with lia.
Qed.

Lemma occursAt_length (s p : string) (i : nat) :
  p <> EmptyString -> occursAt s p i -> i + String.length p <= String.length s.
Proof.
  intros Hp H. apply startsWith_length in H.
  rewrite length_substring_from in H.
  destruct p; [done |]. simpl in *. lia.
Qed.

Lemma occursAt_append (s t p : string) (i : nat) :
  i + String.length p <= String.length s ->
  occursAt (s ++ t) p i <-> occursAt s p i.
Proof.
  intros H. unfold occursAt.
  rewrite substring_from_append by lia.
  rewrite startsWith_append; [done |].
  rewrite length_substring_from. lia.
Qed.

(** [indexOf] finds the first occurrence. *)
Lemma indexOf_Some (s p : string) (i : nat) :
  indexOf s p = Some i <->
  occursAt s p i /\ i <= String.length s
  /\ forall j, j < i -> ~ occursAt s p j.
Proof.
  unfold occursAt. revert i; induction s as [|c s IH]; intros i.
  - simpl. destruct (startsWith EmptyString p) eqn:E.
    + split.
      * intros [= <-]. simpl. rewrite E. repeat split; auto with lia.
      * intros (_ & Hi & _). simpl in Hi. f_equal; lia.
    + split; [done |]. intros (H & Hi & _). simpl in Hi.
      assert (i = 0) as -> by lia. simpl in H. congruence.
  - cbn [indexOf]. destruct (startsWith (String c s) p) eqn:E.
    + split.
      * intros [= <-]. cbn [substring_from]. repeat split; auto with lia.
      * intros (_ & _ & Hmin). destruct i as [|i]; [done |].
        exfalso. apply (Hmin 0); [lia | done].
    + destruct (indexOf s p) as [k|] eqn:Ek; simpl.
      * destruct (proj1 (IH k) eq_refl) as (Hk & Hlen & Hmin). split.
        -- intros [= <-]. simpl. repeat split; auto with lia.
           intros [|j] Hj; simpl; [congruence | apply Hmin; lia].
        -- intros (Hi & Hilen & Himin). destruct i as [|i].
           { simpl in Hi. congruence. }
           simpl in Hi. f_equal.
           destruct (Nat.lt_trichotomy i k) as [Hlt | [-> | Hgt]]; [| done |].
           ++ exfalso. by apply (Hmin i).
           ++ exfalso. apply (Himin (S k)); [lia | done].
      * split; [done |]. intros (Hi & Hilen & Himin). destruct i as [|i].
        { simpl in Hi. congruence. }
        simpl in Hi, Hilen.
        destruct (least_true (fun k => startsWith (substring_from k s) p) i Hi)
          as (k & Hki & Hk & Hkmin).
        assert (@None nat = Some k) as Hk'; [| done].
        apply IH. repeat split; auto with lia.
Qed.

Lemma indexOf_None (s p : string) :
  indexOf s p = None <-> forall j, ~ occursAt s p j.
Proof.
  unfold occursAt. induction s as [|c s IH].
  - simpl. destruct (startsWith EmptyString p) eqn:E.
    + split; [done |]. intros H. exfalso. apply (H 0). done.
    + split; [| done]. intros _ [|j]; simpl; congruence.
  - cbn [indexOf]. destruct (startsWith (String c s) p) eqn:E.
    + split; [done |]. intros H. exfalso. by apply (H 0).
    + destruct (indexOf s p) as [k|] eqn:Ek; simpl.
      * split; [done |]. intros H. exfalso.
        apply indexOf_Some in Ek as (Hk & _). by apply (H (S k)).
      * split; [| done]. intros _ [|j]; simpl; [congruence |].
        by apply IH.
Qed.

End JSFacts.

(** ** The splitter of [processStreamChunk] *)

Module ChatInterfaceFacts.

Import JS JSFacts ChatInterface.

Lemma LFLF_nonempty : LFLF <> EmptyString.
Proof. done. Qed.

Lemma CRLFCRLF_nonempty : CRLFCRLF <> EmptyString.
Proof. done. Qed.

Lemma indexOf_append_Some (a b p : string) (i : nat) :
  p <> EmptyString -> indexOf a p = Some i -> indexOf (a ++ b) p = Some i.
Proof.
  intros Hp (Hi & Hlen & Hmin)%indexOf_Some.
  pose proof (occursAt_length _ _ _ Hp Hi) as Hin.
  apply indexOf_Some. repeat split.
  - by apply occursAt_append.
  - rewrite length_append. lia.
  - intros j Hj Hocc. apply (Hmin j Hj).
    apply occursAt_append in Hocc; [done | lia].
Qed.

Lemma indexOf_append_late (a b p : string) (j : nat) :
  p <> EmptyString -> indexOf a p = None -> indexOf (a ++ b) p = Some j ->
  String.length a < j + String.length p.
Proof.
  intros Hp Hnone (Hj & _)%indexOf_Some.
  destruct (decide (j + String.length p <= String.length a)) as [Hin|]; [| lia].
  exfalso. apply (proj1 (indexOf_None a p) Hnone j).
  by apply occursAt_append in Hj.
Qed.

(** Where ['\r\n\r\n'] starts, ['\n\n'] starts neither there nor one
    character later. *)
Lemma delimiters_clash (s : string) (c : nat) :
  occursAt s CRLFCRLF c ->
  ~ occursAt s LFLF c /\ ~ occursAt s LFLF (c + 1).
Proof.
  unfold occursAt. rewrite substring_from_add. intros H.
  apply startsWith_cons_inv in H as (s1 & -> & H).
  apply startsWith_cons_inv in H as (s2 & -> & H).
  apply startsWith_cons_inv in H as (s3 & -> & H).
  split; done.
Qed.

Lemma nextBoundary_bounds (a : string) (i d : nat) :
  nextBoundary a = Some (i, d) ->
  i + d <= String.length a /\ 2 <= d.
Proof.
  unfold nextBoundary.
  destruct (indexOf a LFLF) as [n|] eqn:En;
    destruct (indexOf a CRLFCRLF) as [c|] eqn:Ec; try done.
  all: try (apply indexOf_Some in En as (En & _);
            apply (occursAt_length _ _ _ LFLF_nonempty) in En).
  all: try (apply indexOf_Some in Ec as (Ec & _);
            apply (occursAt_length _ _ _ CRLFCRLF_nonempty) in Ec).
  all: simpl in *.
  - destruct (Nat.ltb n c); intros [= <- <-]; lia.
  - intros [= <- <-]; lia.
  - intros [= <- <-]; lia.
Qed.

(** A boundary found in a buffer is the boundary found in every extension
    of that buffer. *)
Lemma nextBoundary_append (a b : string) (i d : nat) :
  nextBoundary a = Some (i, d) -> nextBoundary (a ++ b) = Some (i, d).
Proof.
  unfold nextBoundary.
  destruct (indexOf a LFLF) as [n|] eqn:En;
    destruct (indexOf a CRLFCRLF) as [c|] eqn:Ec; try done.
  - rewrite (indexOf_append_Some _ _ _ _ LFLF_nonempty En).
    by rewrite (indexOf_append_Some _ _ _ _ CRLFCRLF_nonempty Ec).
  - rewrite (indexOf_append_Some _ _ _ _ LFLF_nonempty En).
    intros [= <- <-].
    destruct (indexOf (a ++ b) CRLFCRLF) as [c'|] eqn:Ec'; [| done].
    pose proof (indexOf_append_late _ _ _ _ CRLFCRLF_nonempty Ec Ec') as Hlate.
    apply indexOf_Some in Ec' as (Hc' & _).
    apply delimiters_clash in Hc' as [H0 H1].
    pose proof En as (Hn & _)%indexOf_Some.
    pose proof (occursAt_length _ _ _ LFLF_nonempty Hn) as Hin.
    assert (occursAt (a ++ b) LFLF n) as Hn' by by apply occursAt_append.
    simpl in Hlate, Hin.
    destruct (Nat.ltb_spec n c') as [|Hge]; [done |].
    exfalso.
    destruct (decide (n = c')) as [-> | ?]; [done |].
    destruct (decide (n = c' + 1)) as [-> | ?]; [done | lia].
  - rewrite (indexOf_append_Some _ _ _ _ CRLFCRLF_nonempty Ec).
    intros [= <- <-].
    destruct (indexOf (a ++ b) LFLF) as [n'|] eqn:En'; [| done].
    pose proof (indexOf_append_late _ _ _ _ LFLF_nonempty En En') as Hlate.
    apply indexOf_Some in Ec as (Hc & _).
    apply (occursAt_length _ _ _ CRLFCRLF_nonempty) in Hc.
    simpl in Hlate, Hc.
    destruct (Nat.ltb_spec n' c); [lia | done].
Qed.

Lemma cutBlock_shorter (a blk rest : string) :
  cutBlock a = Some (blk, rest) -> String.length rest < String.length a.
Proof.
  unfold cutBlock. destruct (nextBoundary a) as [[i d]|] eqn:E; [| done].
  intros [= <- <-]. apply nextBoundary_bounds in E.
  rewrite length_substring_from. lia.
Qed.

Lemma cutBlock_append (a b blk rest : string) :
  cutBlock a = Some (blk, rest) -> cutBlock (a ++ b) = Some (blk, rest ++ b).
Proof.
  unfold cutBlock. destruct (nextBoundary a) as [[i d]|] eqn:E; [| done].
  intros [= <- <-]. rewrite (nextBoundary_append _ b _ _ E).
  apply nextBoundary_bounds in E.
  rewrite substring_upto_append by lia.
  by rewrite substring_from_append by lia.
Qed.

Section Loop.

Context {St : Type}.
Variable processBlock : string -> St -> St.

(** Fuel beyond the length of the buffer changes nothing. *)
Lemma processLoop_fuel (fuel : nat) (buffer : string) (st : St) :
  String.length buffer <= fuel ->
  processLoop processBlock fuel buffer st
  = processStreamChunk processBlock buffer st.
Proof.
  unfold processStreamChunk.
  remember (String.length buffer) as n eqn:Hn.
  revert fuel buffer st Hn.
  induction n as [n IH] using lt_wf_ind. intros fuel buffer st -> Hfuel.
  destruct (cutBlock buffer) as [[blk rest]|] eqn:E.
  - pose proof (cutBlock_shorter _ _ _ E) as Hshort.
    destruct fuel as [|fuel]; [lia |].
    destruct (String.length buffer) as [|m] eqn:Em; [lia |].
    simpl. rewrite E.
    destruct (truthy blk).
    + rewrite (IH (String.length rest)) by (done || lia).
      by rewrite (IH (String.length rest) ltac:(lia) m) by (done || lia).
    + rewrite (IH (String.length rest)) by (done || lia).
      by rewrite (IH (String.length rest) ltac:(lia) m) by (done || lia).
  - destruct fuel; destruct (String.length buffer); simpl; by rewrite ?E.
Qed.

Lemma processStreamChunk_step (buffer : string) (st : St) :
  processStreamChunk processBlock buffer st
  = match cutBlock buffer with
    | None => (buffer, st)
    | Some (messageBlock, rest) =>
        processStreamChunk processBlock rest
          (if truthy messageBlock then processBlock messageBlock st else st)
    end.
Proof.
  destruct (cutBlock buffer) as [[blk rest]|] eqn:E.
  - pose proof (cutBlock_shorter _ _ _ E) as Hshort.
    unfold processStreamChunk at 1.
    destruct (String.length buffer) as [|m] eqn:Em; [lia |].
    simpl. rewrite E.
    destruct (truthy blk); apply processLoop_fuel; lia.
  - unfold processStreamChunk.
    destruct (String.length buffer); simpl; by rewrite ?E.
Qed.

(** Processing a buffer and then the rest of it with more text appended is
    processing the whole text at once. *)
Lemma processStreamChunk_append (a b : string) (st : St) :
  processStreamChunk processBlock (a ++ b) st
  = processStreamChunk processBlock
      (fst (processStreamChunk processBlock a st) ++ b)
      (snd (processStreamChunk processBlock a st)).
Proof.
  remember (String.length a) as n eqn:Hn. revert a st Hn.
  induction n as [n IH] using lt_wf_ind. intros a st ->.
  rewrite (processStreamChunk_step a).
  destruct (cutBlock a) as [[blk rest]|] eqn:E; [| done].
  rewrite (processStreamChunk_step (a ++ b)).
  rewrite (cutBlock_append _ b _ _ E).
  apply (IH (String.length rest)); [by eapply cutBlock_shorter | done].
Qed.

(** Chunk-boundary invariance of [processStreamChunk]: feeding the chunks
    one by one, carrying the rest of the buffer along, leaves the same rest
    and the same component state as one call on the whole text. *)
Lemma feedChunks_whole (chunks : list string) (buffer : string) (st : St) :
  feedChunks processBlock chunks
    (fst (processStreamChunk processBlock buffer st))
    (snd (processStreamChunk processBlock buffer st))
  = processStreamChunk processBlock
      (buffer ++ foldr String.append EmptyString chunks) st.
Proof.
  revert buffer st. induction chunks as [|chunk chunks IH]; intros buffer st.
  - simpl. rewrite append_empty_r. by destruct (processStreamChunk _ _ _).
  - cbn [feedChunks foldr]. rewrite <- processStreamChunk_append.
    rewrite IH. by rewrite append_assoc.
Qed.

(** X19.  Chunk-boundary invariance of [processStreamChunk], for every text
    and every way of cutting it into chunks: the read loop of
    [handleSubmit], which appends each chunk to what the last call left
    over, ends with the same rest and the same component state as one call
    on the whole text. *)
Theorem processStreamChunk_chunk_invariance (chunks : list string) (st : St) :
  feedChunks processBlock chunks EmptyString st
  = processStreamChunk processBlock (foldr String.append EmptyString chunks) st.
Proof.
  pose proof (feedChunks_whole chunks EmptyString st) as H.
  by rewrite append_nil in H.
Qed.

(** X20.  The turn on [done]: when what is left of the buffer does not trim to
    nothing, the read loop of [handleSubmit] ends in the state that one call
    on the whole text followed by a blank line gives, so a last block that
    lacks its delimiter is processed. *)
Lemma readLoop_flush (chunks : list string) (st : St) :
  truthy (trim (fst (processStreamChunk processBlock
                       (foldr String.append EmptyString chunks) st))) = true ->
  readLoop processBlock chunks st
  = snd (processStreamChunk processBlock
           (foldr String.append EmptyString chunks ++ LFLF) st).
Proof.
  intros H. unfold readLoop, onDone.
  pose proof (feedChunks_whole chunks EmptyString st) as Hw.
  rewrite append_nil in Hw.
  change (processStreamChunk processBlock EmptyString st)
    with (EmptyString, st) in Hw. cbn [fst snd] in Hw.
  rewrite Hw, H. by rewrite <- processStreamChunk_append.
Qed.

End Loop.

Lemma readLoop_flush_witness :
  readLoop collect [Scenario.frameStart ++ LFLF; Scenario.frameAnswer] []
  = snd (processStreamChunk collect
           (foldr String.append EmptyString
              [Scenario.frameStart ++ LFLF; Scenario.frameAnswer] ++ LFLF) []).
Proof.
  apply (readLoop_flush collect
           [Scenario.frameStart ++ LFLF; Scenario.frameAnswer] []).
  by vm_compute.
Defined.

(** C2 as stated fails: the block that is cut is trimmed, so it is not the
    text before the boundary when that text starts or ends in white space. *)
Lemma cut_block_is_trimmed :
  occursAt (" a" ++ LFLF ++ "b" ++ CRLFCRLF) LFLF 2
  /\ occursAt (" a" ++ LFLF ++ "b" ++ CRLFCRLF) CRLFCRLF 5
  /\ cutBlock (" a" ++ LFLF ++ "b" ++ CRLFCRLF) = Some ("a", "b" ++ CRLFCRLF)
  /\ substring_upto 2 (" a" ++ LFLF ++ "b" ++ CRLFCRLF) = " a"
  /\ "a" <> substring_upto 2 (" a" ++ LFLF ++ "b" ++ CRLFCRLF).
Proof. repeat split; by vm_compute. Qed.

(** C2, amended: on a buffer in which both delimiters occur, one cut of
    [processStreamChunk] takes as boundary the first index at which either
    delimiter starts (only one of the two starts there), hands on the text
    before the boundary with the white space at its ends trimmed off, and
    leaves the text after the delimiter that starts at the boundary. *)
Theorem cut_takes_earliest_delimiter (buffer : string) :
  (exists i, occursAt buffer LFLF i) ->
  (exists j, occursAt buffer CRLFCRLF j) ->
  exists boundary delimiter,
    (delimiter = LFLF \/ delimiter = CRLFCRLF)
    /\ occursAt buffer delimiter boundary
    /\ ~ (occursAt buffer LFLF boundary /\ occursAt buffer CRLFCRLF boundary)
    /\ (forall k, k < boundary ->
          ~ occursAt buffer LFLF k /\ ~ occursAt buffer CRLFCRLF k)
    /\ cutBlock buffer
       = Some (trim (substring_upto boundary buffer),
               substring_from (boundary + String.length delimiter) buffer).
Proof.
  intros [i Hi] [j Hj]. unfold cutBlock, nextBoundary.
  destruct (indexOf buffer LFLF) as [n|] eqn:En;
    [| by destruct (proj1 (indexOf_None _ _) En i)].
  destruct (indexOf buffer CRLFCRLF) as [c|] eqn:Ec;
    [| by destruct (proj1 (indexOf_None _ _) Ec j)].
  apply indexOf_Some in En as (Hn & _ & Hnmin).
  apply indexOf_Some in Ec as (Hc & _ & Hcmin).
  assert (forall b, ~ (occursAt buffer LFLF b /\ occursAt buffer CRLFCRLF b))
    as Hone.
  { intros b [H1 H2]. by apply delimiters_clash in H2 as [H2 _]. }
  destruct (Nat.ltb_spec n c) as [Hlt | Hge].
  - exists n, LFLF. split_and!; auto.
    intros k Hk. split; [by apply Hnmin | apply Hcmin; lia].
  - exists c, CRLFCRLF. split_and!; auto.
    intros k Hk. split; [apply Hnmin; lia | by apply Hcmin].
Qed.

Lemma cut_takes_earliest_delimiter_witness :
  exists boundary delimiter,
    (delimiter = LFLF \/ delimiter = CRLFCRLF)
    /\ occursAt (" a" ++ LFLF ++ "b" ++ CRLFCRLF) delimiter boundary
    /\ ~ (occursAt (" a" ++ LFLF ++ "b" ++ CRLFCRLF) LFLF boundary
          /\ occursAt (" a" ++ LFLF ++ "b" ++ CRLFCRLF) CRLFCRLF boundary)
    /\ (forall k, k < boundary ->
          ~ occursAt (" a" ++ LFLF ++ "b" ++ CRLFCRLF) LFLF k
          /\ ~ occursAt (" a" ++ LFLF ++ "b" ++ CRLFCRLF) CRLFCRLF k)
    /\ cutBlock (" a" ++ LFLF ++ "b" ++ CRLFCRLF)
       = Some (trim (substring_upto boundary (" a" ++ LFLF ++ "b" ++ CRLFCRLF)),
               substring_from (boundary + String.length delimiter)
                 (" a" ++ LFLF ++ "b" ++ CRLFCRLF)).
Proof.
  apply (cut_takes_earliest_delimiter (" a" ++ LFLF ++ "b" ++ CRLFCRLF)).
  - exists 2. vm_compute. reflexivity.
  - exists 5. vm_compute. reflexivity.
Defined.

End ChatInterfaceFacts.

(** ** The reducer *)

Module ChatPageFacts.

Import ChatPage Scenario.

Lemma notSameId_same (id : string) : notSameId (Some id) id = false.
Proof. simpl. by rewrite String.eqb_refl. Qed.

Lemma notSameId_other (x : option string) (id : string) :
  x <> Some id -> notSameId x id = true.
Proof.
  destruct x as [y|]; simpl; [| done]. intros H.
  destruct (String.eqb_spec y id) as [-> | ?]; done.
Qed.

Lemma reduce_update_hit (now : N) (st : ChatState) (id text : string)
    (flag : bool) (handoff : option string) (m : Message) :
  messages st !! id = Some m ->
  chatReducer now st (UPDATE_ASSISTANT_JSON_CONTENT id text flag handoff)
  = withMessages st (<[id := withContent m text]> (messages st)).
Proof. intros H. simpl. by rewrite H. Qed.

Lemma reduce_complete_loading (now : N) (st : ChatState) (id : string)
    (m : Message) :
  loadingMessageId st = Some id ->
  messages st !! id = Some m ->
  chatReducer now st (COMPLETE_ASSISTANT_MESSAGE id)
  = {| messages := <[id := withIsLoading m false]> (messages st);
       messageOrder := messageOrder st; isLoading := false;
       loadingMessageId := None; currentAssistantMessageId := None |}.
Proof. intros Hl Hm. simpl. by rewrite Hl, notSameId_same, Hm. Qed.

(** The guard of [APPEND_DELTA] and of [UPDATE_AGENT_NAME]: an action whose
    target is not the loading message returns the state it was given. *)
Lemma append_delta_guard (now : N) (st : ChatState) (id delta : string) :
  loadingMessageId st <> Some id ->
  chatReducer now st (APPEND_DELTA id delta) = st.
Proof.
  intros H. simpl. rewrite (notSameId_other _ _ H).
  by destruct (messages st !! id).
Qed.

Lemma update_agent_name_guard (now : N) (st : ChatState) (id name : string) :
  loadingMessageId st <> Some id ->
  chatReducer now st (UPDATE_AGENT_NAME id name) = st.
Proof.
  intros H. simpl. rewrite (notSameId_other _ _ H).
  by destruct (messages st !! id).
Qed.

(** C4 (guard law), at the state in which [a1] has been completed and no
    message is loading.  [APPEND_DELTA] and [UPDATE_AGENT_NAME] aimed at [a1]
    return the state unchanged, but [UPDATE_ASSISTANT_JSON_CONTENT] aimed at
    [a1] replaces the content of the message: its case tests only that the
    message exists, not that it is the loading one. *)
Theorem update_json_content_skips_loading_guard :
  loadingMessageId completedState = None
  /\ msg_content <$> messages completedState !! "a1" = Some "Here are"
  /\ chatReducer 1003 completedState (APPEND_DELTA "a1" " late") = completedState
  /\ chatReducer 1003 completedState (UPDATE_AGENT_NAME "a1" "Late")
     = completedState
  /\ msg_content <$>
       messages (chatReducer 1003 completedState
                   (UPDATE_ASSISTANT_JSON_CONTENT "a1" "late" false None))
       !! "a1"
     = Some "late".
Proof.
  split; [done |]. split; [by vm_compute |].
  split; [by apply append_delta_guard |].
  split; [by apply update_agent_name_guard |].
  by vm_compute.
Qed.

(** C5 as stated fails: after a second [START_ASSISTANT_MESSAGE] with another
    id the message that was loading still carries [isLoading = true]. *)
Lemma overlapping_start_leaves_prior_loading :
  loadingMessageId streamingState = Some "a1"
  /\ msg_isLoading <$> messages streamingState !! "a1" = Some (Some true)
  /\ msg_isLoading <$>
       messages (chatReducer 1002 streamingState
                   (START_ASSISTANT_MESSAGE "a2" None)) !! "a1"
     <> Some (Some false).
Proof. split; [done |]. split; by vm_compute. Qed.

(** C5, amended: a [START_ASSISTANT_MESSAGE] for [Y] while another message
    [X] is loading leaves the record of [X] as it was, content and loading
    flag included, so [X] is not finalized; [Y] is added empty and loading
    and becomes the loading and current message.  The read loop dispatches
    this one action for the event and nothing for [X]. *)
Theorem start_while_active_keeps_prior_message
    (now : N) (state : ChatState) (X Y : string) (agent : option string)
    (msgX : Message) (jsonBuffer : string) :
  messages state !! X = Some msgX ->
  X <> Y ->
  let state' := chatReducer now state (START_ASSISTANT_MESSAGE Y agent) in
  messages state' !! X = Some msgX
  /\ messages state' !! Y
     = Some (mkMessage Y assistant EmptyString
               (Some (orDefault agent "Assistant")) (Some true))
  /\ loadingMessageId state' = Some Y
  /\ currentAssistantMessageId state' = Some Y
  /\ SendMessage.handleEvent X jsonBuffer
       (JSON.JObject
          [("event_type", JSON.JString "START_ASSISTANT_MESSAGE");
           ("data", JSON.JObject [("id", JSON.JString Y)])])
     = Some (SendMessage.mkOutcome Y EmptyString
               [START_ASSISTANT_MESSAGE Y (Some "Assistant")] false false).
Proof.
  intros HX Hne. simpl. split; [| split; [| done]].
  - by rewrite lookup_insert_ne.
  - by rewrite lookup_insert_eq.
Qed.

Lemma start_while_active_keeps_prior_message_witness :
  messages (chatReducer 1002 streamingState (START_ASSISTANT_MESSAGE "a2" None))
    !! "a1"
  = Some (mkMessage "a1" assistant "Here are" (Some "Assistant") (Some true)).
Proof.
  refine (proj1 (start_while_active_keeps_prior_message 1002 streamingState
                   "a1" "a2" None _ EmptyString _ _)).
  - by vm_compute.
  - done.
Defined.

(** What each action does to [messageOrder]. *)
Lemma messageOrder_step (now : N) (st : ChatState) (action : ChatAction) :
  messageOrder (chatReducer now st action)
  = match action with
    | RESET_CHAT => []
    | _ => (messageOrder st
            ++ match introduces now action with
               | Some id => [id]
               | None => []
               end)%list
    end.
Proof.
  destruct action; simpl; rewrite ?app_nil_r; try done.
  - destruct (messages st !! id); [| done].
    by destruct (notSameId _ _).
  - by destruct (messages st !! id).
  - destruct (messages st !! id); [| done].
    by destruct (notSameId _ _).
  - by destruct (_ && _)%bool.
Qed.

Lemma append_fresh_id (order : list string) (id : string) :
  NoDup order -> id ∉ order -> NoDup (order ++ [id]).
Proof.
  intros Hnd Hfresh. apply NoDup_app. split_and!; [done | | apply NoDup_singleton].
  by intros x Hx ->%list_elem_of_singleton.
Qed.

(** C9 as stated fails: the reducer appends the id it is given, so two
    [START_ASSISTANT_MESSAGE] actions with one id leave it twice in
    [messageOrder]. *)
Lemma repeated_id_is_appended_twice :
  messageOrder
    (runReducer initialState
       [(1%N, START_ASSISTANT_MESSAGE "a1" None);
        (2%N, START_ASSISTANT_MESSAGE "a1" None)])
  = ["a1"; "a1"]
  /\ ~ NoDup
       (messageOrder
          (runReducer initialState
             [(1%N, START_ASSISTANT_MESSAGE "a1" None);
              (2%N, START_ASSISTANT_MESSAGE "a1" None)])).
Proof.
  split; [done |]. intros [H _]%NoDup_cons. apply H. left.
Qed.

(** C9, amended: from the initial state, a run of actions in which every id
    that is appended (the id of the payload of [ADD_USER_MESSAGE] and of
    [START_ASSISTANT_MESSAGE], the clock-derived id of [SET_ERROR]) is not
    yet in [messageOrder] leaves every id at most once in it. *)
Theorem order_unique_when_ids_fresh (actions : list (N * ChatAction)) :
  freshRun initialState actions ->
  NoDup (messageOrder (runReducer initialState actions)).
Proof.
  assert (forall st, NoDup (messageOrder st) -> freshRun st actions ->
                     NoDup (messageOrder (runReducer st actions))) as Hrun.
  { induction actions as [|[now action] actions IH]; intros st Hst; [done |].
    intros [Hfresh Hrest]. cbn [runReducer foldl fst snd].
    apply IH; [| done]. rewrite messageOrder_step.
    destruct action; simpl in *; rewrite ?app_nil_r;
      try done; try by apply append_fresh_id.
    apply NoDup_nil_2. }
  apply Hrun. apply NoDup_nil_2.
Qed.

Lemma order_unique_when_ids_fresh_witness :
  NoDup
    (messageOrder
       (runReducer initialState
          [(1000%N, ADD_USER_MESSAGE
                      (mkMessage "user-1000" user "show u9s players" None None));
           (1001%N, START_ASSISTANT_MESSAGE "a1" None);
           (1002%N, SET_ERROR "boom");
           (1003%N, RESET_CHAT);
           (1004%N, START_ASSISTANT_MESSAGE "a1" None)])).
Proof.
  apply order_unique_when_ids_fresh. cbn.
  repeat split; apply (bool_decide_unpack _); by vm_compute.
Defined.

End ChatPageFacts.

(** ** The read loop of [handleSendMessage] *)

Module SendMessageFacts.

Import JS JSFacts ChatPage SendMessage Scenario ChatPageFacts.

Lemma findBoundary_bounds (buffer : string) (i : nat) :
  findBoundary buffer = Some i -> i + 2 <= String.length buffer.
Proof.
  unfold findBoundary. destruct (indexOf buffer LFLF) as [n|] eqn:En.
  - intros [= <-]. apply indexOf_Some in En as (En & _).
    by apply (occursAt_length _ LFLF) in En.
  - intros (Ec & _)%indexOf_Some.
    apply (occursAt_length _ CRLFCRLF) in Ec; [simpl in Ec; lia | done].
Qed.

Lemma block_cut_shortens_buffer (buffer raw rest : string) :
  cutBlock buffer = Some (raw, rest) -> String.length rest < String.length buffer.
Proof.
  unfold cutBlock. destruct (findBoundary buffer) as [i|] eqn:E; [| done].
  intros [= <- <-]. apply findBoundary_bounds in E.
  rewrite length_substring_from. case_match; lia.
Qed.

(** Fuel beyond the length of [fetchBuffer] changes nothing: the inner loop
    always ends by itself. *)
Lemma drain_fuel (fuel : nat) (l : Loop) :
  String.length (fetchBuffer l) <= fuel ->
  drain fuel l = drain (String.length (fetchBuffer l)) l.
Proof.
  remember (String.length (fetchBuffer l)) as n eqn:Hn.
  revert fuel l Hn. induction n as [n IH] using lt_wf_ind.
  intros fuel l -> Hfuel.
  destruct (cutBlock (fetchBuffer l)) as [[raw rest]|] eqn:E.
  - pose proof (block_cut_shortens_buffer _ _ _ E) as Hshort.
    destruct fuel as [|fuel]; [lia |].
    destruct (String.length (fetchBuffer l)) as [|m] eqn:Em; [lia |].
    simpl. rewrite E.
    destruct (handleBlock _ _ raw) as [o|]; [| done]. simpl.
    destruct (out_break o); [done |].
    rewrite (IH (String.length rest) ltac:(lia) fuel) by (done || simpl; lia).
    by rewrite (IH (String.length rest) ltac:(lia) m) by (done || simpl; lia).
  - destruct fuel; destruct (String.length (fetchBuffer l)); simpl;
      by rewrite ?E.
Qed.

(** C3 (partial-JSON replace, end to end).  From any state of the page, the
    blocks START_ASSISTANT_MESSAGE(a1), a delta carrying
    [{"agent_response_text": "Here], a delta carrying [ are 3 players"}] and
    COMPLETE_ASSISTANT_MESSAGE(a1), read one chunk each, leave the message
    [a1] completed with the content [Here are 3 players]: the field parsed
    out of the accumulated deltas, not their concatenation.  The first
    delta, which does not parse yet, dispatches nothing; and the whole
    exchange from the first page, the four blocks arriving in one chunk,
    ends the same way. *)
Theorem partial_json_replaces_content
    (state : ChatState) (jsonBuffer : string) (t1 t2 t3 t4 tdone : N) :
  (exists l' state',
     readLoop [(t1, frameStart ++ LFLF); (t2, frameDelta1 ++ LFLF);
               (t3, frameDelta2 ++ LFLF); (t4, frameComplete ++ LFLF)]
       tdone (mkLoop EmptyString EmptyString jsonBuffer) state
     = Some (l', state')
     /\ messages state' !! "a1"
        = Some (mkMessage "a1" assistant "Here are 3 players"
                  (Some "Assistant") (Some false))
     /\ loadingMessageId state' = None)
  /\ (dispatched <$> (snd <$> onChunk (mkLoop EmptyString "a1" EmptyString)
                                (frameDelta1 ++ LFLF)))
     = Some []
  /\ (exists final,
        handleSendMessage 1000 initialState jsonBuffer "show u9s players"
          (Body [(1001%N, frameStart ++ LFLF ++ frameDelta1 ++ LFLF
                            ++ frameDelta2 ++ LFLF ++ frameComplete ++ LFLF)]
             1002) 1003
        = Some final
        /\ messageOrder final = ["user-1000"; "a1"]
        /\ messages final !! "a1"
           = Some (mkMessage "a1" assistant "Here are 3 players"
                     (Some "Assistant") (Some false))
        /\ isLoading final = false).
Proof.
  split; [| split; [by vm_compute |]].
  - eexists _, _. split.
    + cbn [readLoop]. do 4 run_chunk. reflexivity.
    + unfold dispatchAll, onDone. cbn [foldl activeMessageId truthy].
      set (s1 := chatReducer t1 state _).
      erewrite (reduce_update_hit t3 s1); [| apply lookup_insert_eq].
      erewrite (reduce_update_hit t4); [| apply lookup_insert_eq].
      erewrite (reduce_complete_loading t4); [| done | apply lookup_insert_eq].
      cbn [messages loadingMessageId]. by rewrite lookup_insert_eq.
  - eexists. split.
    + unfold handleSendMessage. cbn [isLoading initialState].
      cbn [readLoop]. run_chunk. reflexivity.
    + repeat split; by vm_compute.
Qed.

(** C6 (error event), at the page that has sent a message and reads the
    start of [a1] and then a [ServerError] block.  The error branch
    dispatches [SET_ERROR] and then [COMPLETE_ASSISTANT_MESSAGE] for [a1];
    [SET_ERROR] has cleared the loading ids by then, the guard of the
    completion returns the state as it is, and [a1] keeps
    [isLoading = true], also after the stream has ended. *)
Theorem error_event_leaves_active_message_loading :
  (dispatched <$> (snd <$> onChunk (mkLoop EmptyString "a1" EmptyString)
                             (frameError ++ LFLF)))
  = Some [SET_ERROR "boom"; COMPLETE_ASSISTANT_MESSAGE "a1"]
  /\ exists l state',
       readLoop [(1001%N, frameStart ++ LFLF); (1002%N, frameError ++ LFLF)]
         1003 freshLoop submittedState
       = Some (l, state')
       /\ messageOrder state' = ["user-1000"; "a1"; "error-1002"]
       /\ messages state' !! "error-1002"
          = Some (mkMessage "error-1002" assistant "Error: boom"
                    (Some "System Error") None)
       /\ isLoading state' = false
       /\ loadingMessageId state' = None
       /\ msg_isLoading <$> messages state' !! "a1" = Some (Some true).
Proof.
  split; [by vm_compute |].
  eexists _, _. split; [by vm_compute |].
  repeat split; by vm_compute.
Qed.

(** C1 (chunk-boundary invariance), on the inner loop of
    [handleSendMessage] with a stream whose first block ends in
    ['\r\n\r\n'] and whose second block ends in ['\n\n'].  Read in one
    chunk, the loop condition finds ['\n\n'] first and cuts one block that
    spans both events; read in two chunks, it cuts the two blocks.  The
    splitter of [processStreamChunk] cuts the two blocks either way. *)
Theorem mixed_delimiters_depend_on_chunking :
  blocksRead [frameStart ++ CRLFCRLF ++ frameComplete ++ LFLF] freshLoop
  = Some [frameStart ++ CRLFCRLF ++ frameComplete]
  /\ blocksRead [frameStart ++ CRLFCRLF; frameComplete ++ LFLF] freshLoop
     = Some [frameStart; frameComplete]
  /\ (messageOrder <$> (snd <$>
        readLoop [(1001%N, frameStart ++ CRLFCRLF ++ frameComplete ++ LFLF)]
          1002 freshLoop submittedState))
     = Some ["user-1000"]
  /\ (messageOrder <$> (snd <$>
        readLoop [(1001%N, frameStart ++ CRLFCRLF);
                  (1001%N, frameComplete ++ LFLF)]
          1002 freshLoop submittedState))
     = Some ["user-1000"; "a1"]
  /\ ChatInterface.processStreamChunk ChatInterface.collect
       (frameStart ++ CRLFCRLF ++ frameComplete ++ LFLF) []
     = (EmptyString, [frameStart; frameComplete]).
Proof. repeat split; by vm_compute. Qed.

(** C8 (end-of-stream flush), on the read loop of [handleSendMessage] with
    a stream that ends in a block without a closing blank line.  On [done]
    the loop dispatches the completion and leaves; the last block stays in
    [fetchBuffer], and the answer it carries never reaches the message.
    With the blank line the answer is shown, and the read loop of
    [handleSubmit] processes the last block without it. *)
Theorem final_block_without_delimiter_is_dropped :
  (exists l state',
     readLoop [(1001%N, frameStart ++ LFLF ++ frameAnswer)] 1002 freshLoop
       submittedState
     = Some (l, state')
     /\ fetchBuffer l = frameAnswer
     /\ messages state' !! "a1"
        = Some (mkMessage "a1" assistant EmptyString (Some "Assistant")
                  (Some false)))
  /\ (exists l state',
        readLoop [(1001%N, frameStart ++ LFLF ++ frameAnswer ++ LFLF)] 1002
          freshLoop submittedState
        = Some (l, state')
        /\ fetchBuffer l = EmptyString
        /\ messages state' !! "a1"
           = Some (mkMessage "a1" assistant "Hi" (Some "Assistant")
                     (Some false)))
  /\ ChatInterface.readLoop ChatInterface.collect
       [frameStart ++ LFLF ++ frameAnswer] []
     = [frameStart; frameAnswer].
Proof.
  split; [| split; [| by vm_compute]].
  - eexists _, _. split; [by vm_compute |]. split; by vm_compute.
  - eexists _, _. split; [by vm_compute |]. split; by vm_compute.
Qed.

Lemma data_prefix_inv (raw : string) :
  startsWith raw "data: " = true ->
  exists rest,
    substring_from 5 raw = String " "%char rest /\ substring_from 6 raw = rest.
Proof.
  intros H.
  apply startsWith_cons_inv in H as (s1 & -> & H).
  apply startsWith_cons_inv in H as (s2 & -> & H).
  apply startsWith_cons_inv in H as (s3 & -> & H).
  apply startsWith_cons_inv in H as (s4 & -> & H).
  apply startsWith_cons_inv in H as (s5 & -> & H).
  apply startsWith_cons_inv in H as (s6 & -> & H).
  by exists s6.
Qed.

Lemma trim_data_value (raw : string) :
  startsWith raw "data: " = true ->
  trim (substring_from 6 raw) = trim (substring_from 5 raw).
Proof. intros (rest & -> & ->)%data_prefix_inv. done. Qed.

(** C10 (the [[DONE]] sentinel).  A block that starts with [data: ] and
    whose value, trimmed, is empty or upper-cases to [[DONE]] is consumed
    without a trace: the read loop dispatches nothing, keeps its variables,
    reports no decode error, and the state of the page is the one before.
    The append-only revision of the loop does the same. *)
Theorem done_sentinel_dispatches_nothing
    (activeMessageId jsonBuffer rawEventData : string)
    (now : N) (state : ChatState) :
  startsWith rawEventData "data: " = true ->
  trim (substring_from 5 rawEventData) = EmptyString
  \/ toUpperCase (trim (substring_from 5 rawEventData)) = "[DONE]" ->
  handleBlock activeMessageId jsonBuffer rawEventData
  = Some (mkOutcome activeMessageId jsonBuffer [] false false)
  /\ (forall o, handleBlock activeMessageId jsonBuffer rawEventData = Some o ->
       dispatchAll now state (out_dispatched o) = state)
  /\ SendMessageAppend.handleBlock activeMessageId rawEventData
     = Some ([], false).
Proof.
  intros Hdata Hvalue.
  assert (handleBlock activeMessageId jsonBuffer rawEventData
          = Some (mkOutcome activeMessageId jsonBuffer [] false false)) as Hq.
  { unfold handleBlock. rewrite Hdata.
    destruct Hvalue as [-> | ->]; [done |].
    by rewrite String.eqb_refl, andb_false_r. }
  split; [done |]. split.
  - intros o Ho. rewrite Hq in Ho. by injection Ho as <-.
  - unfold SendMessageAppend.handleBlock.
    rewrite Hdata, (trim_data_value _ Hdata).
    destruct Hvalue as [-> | ->]; [done |].
    by rewrite String.eqb_refl, andb_false_r.
Qed.

Lemma done_sentinel_dispatches_nothing_witness :
  handleBlock "a1" EmptyString "data: [Done]"
  = Some (mkOutcome "a1" EmptyString [] false false).
Proof.
  refine (proj1 (done_sentinel_dispatches_nothing "a1" EmptyString
                   "data: [Done]" 0 initialState _ _)).
  - reflexivity.
  - right. reflexivity.
Defined.





End SendMessageFacts.

(** ** Invariants of the reducer *)

Module ReducerInvariants.

Import ChatPage ChatPageFacts Runs.

Lemma ids_agree_step (now : N) (st : ChatState) (action : ChatAction) :
  loadingMessageId st = currentAssistantMessageId st ->
  loadingMessageId (chatReducer now st action)
  = currentAssistantMessageId (chatReducer now st action).
Proof. intros H. destruct action; simpl; repeat case_match; done. Qed.

(** X1.  In every state that the reducer reaches from the initial state,
    whatever the actions, [loadingMessageId] and [currentAssistantMessageId]
    hold the same value. *)
Theorem loading_ids_always_agree (actions : list (N * ChatAction)) :
  loadingMessageId (runReducer initialState actions)
  = currentAssistantMessageId (runReducer initialState actions).
Proof.
  unfold runReducer.
  assert (forall st, loadingMessageId st = currentAssistantMessageId st ->
            loadingMessageId
              (foldl (fun st a => chatReducer (fst a) st (snd a)) st actions)
            = currentAssistantMessageId
                (foldl (fun st a => chatReducer (fst a) st (snd a)) st actions))
    as Hrun.
  { induction actions as [|[now a] actions IH]; intros st Hst; [done |].
    simpl. apply IH. by apply ids_agree_step. }
  by apply Hrun.
Qed.

Lemma listed_insert_new (st : ChatState) (id : string) (m : Message)
    (id' : string) :
  listed st ->
  id' ∈ (messageOrder st ++ [id])%list
  <-> is_Some (<[id := m]> (messages st) !! id').
Proof.
  intros H. rewrite elem_of_app, list_elem_of_singleton, lookup_insert_is_Some.
  rewrite (H id'). destruct (decide (id = id')); intuition congruence.
Qed.

Lemma listed_insert_old (st : ChatState) (id : string) (m : Message)
    (id' : string) :
  listed st -> is_Some (messages st !! id) ->
  id' ∈ messageOrder st <-> is_Some (<[id := m]> (messages st) !! id').
Proof.
  intros H Hid. rewrite lookup_insert_is_Some, (H id').
  destruct (decide (id = id')) as [<- |]; intuition congruence.
Qed.

Lemma listed_step (now : N) (st : ChatState) (action : ChatAction) :
  listed st -> listed (chatReducer now st action).
Proof.
  intros H. destruct action; simpl; repeat case_match; try done; intros id';
    simpl;
    try (by apply listed_insert_new);
    try (by apply listed_insert_old; [| eexists]).
  rewrite lookup_empty. split; [by intros ?%elem_of_nil | by intros [? ?]].
Qed.

Lemma filed_step (now : N) (st : ChatState) (action : ChatAction) :
  filed st -> filed (chatReducer now st action).
Proof.
  intros H. destruct action; simpl; repeat case_match; try done;
    intros id' m'; simpl;
    try (rewrite lookup_insert; case_decide; simplify_eq; [| by apply H];
         intros [= <-]; simpl; eauto).
Qed.


Lemma listed_initial : listed initialState.
Proof.
  intros id. simpl. rewrite lookup_empty.
  split; [by intros ?%elem_of_nil | by intros [? ?]].
Qed.





End ReducerInvariants.

(** ** How the actions of the reducer compose *)

Module ReducerLaws.

Import ChatPage ChatPageFacts Runs ReducerInvariants.

Lemma runReducer_app (st : ChatState) (a b : list (N * ChatAction)) :
  runReducer st (a ++ b)%list = runReducer (runReducer st a) b.
Proof. unfold runReducer. apply foldl_app. Qed.

Lemma notSameId_false (x : option string) (id : string) :
  notSameId x id = false -> x = Some id.
Proof.
  destruct x as [y|]; simpl; [| done].
  destruct (String.eqb_spec y id) as [-> |]; done.
Qed.

(** A message that is loading stays the loading message, with its id and
    role, under the actions that change messages in place. *)
Lemma update_keeps_loading (now : N) (st : ChatState) (X : string)
    (action : ChatAction) :
  updates action = true ->
  loadingMessageId st = Some X
  /\ (exists m, messages st !! X = Some m /\ msg_id m = X
                /\ msg_role m = assistant) ->
  loadingMessageId (chatReducer now st action) = Some X
  /\ (exists m, messages (chatReducer now st action) !! X = Some m
                /\ msg_id m = X /\ msg_role m = assistant).
Proof.
  intros Hu (Hl & m & Hm & Hid & Hrole).
  destruct action; try done; simpl; repeat case_match; simpl;
    try (split; [done | by exists m]);
    (split; [done |]);
    (destruct (decide (id = X)) as [-> |];
     [rewrite lookup_insert_eq; simplify_eq; eauto
     | rewrite lookup_insert_ne by done; eauto]).
Qed.

(** X4.  After [START_ASSISTANT_MESSAGE] for [X], any number of
    [APPEND_DELTA], [UPDATE_ASSISTANT_JSON_CONTENT] and [UPDATE_AGENT_NAME]
    actions (whatever their targets), and then [COMPLETE_ASSISTANT_MESSAGE]
    for [X], no message is loading, the page is not loading, and [X] is
    stored as an assistant message with [isLoading = false]. *)
Theorem start_updates_complete
    (now finish : N) (st : ChatState) (X : string) (agent : option string)
    (between : list (N * ChatAction)) :
  Forall (fun a => updates (snd a) = true) between ->
  let st' :=
    runReducer (chatReducer now st (START_ASSISTANT_MESSAGE X agent))
      (between ++ [(finish, COMPLETE_ASSISTANT_MESSAGE X)])%list in
  loadingMessageId st' = None
  /\ currentAssistantMessageId st' = None
  /\ isLoading st' = false
  /\ exists m, messages st' !! X = Some m /\ msg_id m = X
               /\ msg_role m = assistant /\ msg_isLoading m = Some false.
Proof.
  intros Hb st'. subst st'. rewrite runReducer_app.
  set (s1 := chatReducer now st _).
  assert (loadingMessageId (runReducer s1 between) = Some X
          /\ exists m, messages (runReducer s1 between) !! X = Some m
                       /\ msg_id m = X /\ msg_role m = assistant)
    as (Hl & m & Hm & Hid & Hrole).
  { assert (loadingMessageId s1 = Some X
            /\ exists m, messages s1 !! X = Some m /\ msg_id m = X
                         /\ msg_role m = assistant) as Hs1.
    { split; [done |]. eexists. split; [apply lookup_insert_eq | done]. }
    clearbody s1. revert s1 Hs1.
    induction Hb as [|[t a] between Ha Hb IH]; intros s1 Hs1; [done |].
    apply (IH (chatReducer t s1 a)). by apply update_keeps_loading. }
  cbn [runReducer foldl fst snd].
  rewrite (reduce_complete_loading _ _ _ m Hl Hm). cbn.
  split_and!; try done. eexists. split; [apply lookup_insert_eq | done].
Qed.

Lemma start_updates_complete_witness :
  exists m,
    messages
      (runReducer
         (chatReducer 1 initialState (START_ASSISTANT_MESSAGE "a1" None))
         ([(2%N, APPEND_DELTA "a1" "Hi"); (3%N, UPDATE_AGENT_NAME "zz" "Bot")]
          ++ [(4%N, COMPLETE_ASSISTANT_MESSAGE "a1")])%list) !! "a1" = Some m
    /\ msg_id m = "a1" /\ msg_role m = assistant
    /\ msg_isLoading m = Some false.
Proof.
  refine (proj2 (proj2 (proj2
    (start_updates_complete 1 4 initialState "a1" None
       [(2%N, APPEND_DELTA "a1" "Hi"); (3%N, UPDATE_AGENT_NAME "zz" "Bot")]
       _)))).
  repeat constructor.
Defined.

Lemma appends_accumulate (st : ChatState) (X : string) (m : Message)
    (deltas : list (N * string)) :
  loadingMessageId st = Some X -> messages st !! X = Some m ->
  messages (runReducer st (appends X deltas)) !! X
  = Some (withContent m
            (msg_content m ++ foldr String.append EmptyString (snd <$> deltas))).
Proof.
  revert st m. induction deltas as [|[t d] deltas IH]; intros st m Hl Hm.
  - simpl. rewrite JSFacts.append_empty_r. by destruct m.
  - cbn [appends fmap list_fmap runReducer foldl fst snd foldr].
    simpl chatReducer. rewrite Hm, Hl, notSameId_same.
    unfold appends, runReducer in IH. erewrite IH;
      [| done | apply lookup_insert_eq].
    simpl. by rewrite JSFacts.append_assoc.
Qed.

(** X5.  The deltas appended to a message after its start make up its
    content in the order of arrival: after [START_ASSISTANT_MESSAGE] for [X]
    and one [APPEND_DELTA] for [X] per delta, the content of [X] is the
    concatenation of the deltas, and [X] is still loading. *)
Theorem deltas_concatenate
    (now : N) (st : ChatState) (X : string) (agent : option string)
    (deltas : list (N * string)) :
  messages
    (runReducer (chatReducer now st (START_ASSISTANT_MESSAGE X agent))
       (appends X deltas)) !! X
  = Some (mkMessage X assistant
            (foldr String.append EmptyString (snd <$> deltas))
            (Some (orDefault agent "Assistant")) (Some true)).
Proof.
  erewrite appends_accumulate; [| done | apply lookup_insert_eq]. done.
Qed.

(** X6.  Two [APPEND_DELTA] actions for one message do what a single one
    with the two deltas joined does, in every state: both are dropped when
    the message is not the loading one. *)
Theorem append_delta_composes
    (t1 t2 t3 : N) (st : ChatState) (id d1 d2 : string) :
  chatReducer t2 (chatReducer t1 st (APPEND_DELTA id d1)) (APPEND_DELTA id d2)
  = chatReducer t3 st (APPEND_DELTA id (d1 ++ d2)).
Proof.
  simpl. destruct (messages st !! id) as [m|] eqn:Hm; [| by rewrite Hm].
  destruct (notSameId (loadingMessageId st) id) eqn:Hg; [by rewrite Hm, Hg |].
  simpl. rewrite lookup_insert_eq, Hg. unfold withMessages. simpl.
  by rewrite insert_insert_eq, JSFacts.append_assoc.
Qed.

(** X7.  [UPDATE_ASSISTANT_JSON_CONTENT] replaces: of two updates of one
    message only the second shows, in every state. *)
Theorem json_update_overwrites
    (t1 t2 t3 : N) (st : ChatState) (id a b : string) (f1 f2 : bool)
    (h1 h2 : option string) :
  chatReducer t2
    (chatReducer t1 st (UPDATE_ASSISTANT_JSON_CONTENT id a f1 h1))
    (UPDATE_ASSISTANT_JSON_CONTENT id b f2 h2)
  = chatReducer t3 st (UPDATE_ASSISTANT_JSON_CONTENT id b f2 h2).
Proof.
  simpl. destruct (messages st !! id) as [m|] eqn:Hm; [| by rewrite Hm].
  simpl. rewrite lookup_insert_eq. unfold withMessages. simpl.
  by rewrite insert_insert_eq.
Qed.

(** X8.  Completing is idempotent: a second [COMPLETE_ASSISTANT_MESSAGE]
    for the same id changes nothing, whether the first was accepted or
    not. *)
Theorem complete_is_idempotent (t1 t2 : N) (st : ChatState) (id : string) :
  chatReducer t2 (chatReducer t1 st (COMPLETE_ASSISTANT_MESSAGE id))
    (COMPLETE_ASSISTANT_MESSAGE id)
  = chatReducer t1 st (COMPLETE_ASSISTANT_MESSAGE id).
Proof.
  simpl.
  destruct (notSameId (loadingMessageId st) id
            && notSameId (currentAssistantMessageId st) id)%bool eqn:Hg.
  - by rewrite Hg.
  - done.
Qed.

Lemma keeps_messages_step (now : N) (st : ChatState) (action : ChatAction)
    (id : string) :
  isReset action = false ->
  is_Some (messages st !! id) ->
  is_Some (messages (chatReducer now st action) !! id).
Proof.
  intros Hr Hid. destruct action; try done; simpl; repeat case_match; simpl;
    try done; rewrite lookup_insert_is_Some';
    by right.
Qed.

(** X9.  Without [RESET_CHAT] nothing is ever taken away: the
    [messageOrder] of the state before is a prefix of the one after, and
    every id that had a message still has one. *)
Theorem only_reset_removes
    (st : ChatState) (actions : list (N * ChatAction)) :
  Forall (fun a => isReset (snd a) = false) actions ->
  messageOrder st `prefix_of` messageOrder (runReducer st actions)
  /\ forall id, is_Some (messages st !! id) ->
                is_Some (messages (runReducer st actions) !! id).
Proof.
  intros H. revert st.
  induction H as [|[t a] actions Ha _ IH]; intros st; [done |].
  cbn [runReducer foldl fst snd]. destruct (IH (chatReducer t st a)) as [Ho Hm].
  split.
  - etrans; [| apply Ho]. rewrite messageOrder_step.
    destruct a; try done; apply prefix_app_r; done.
  - intros id Hid. apply Hm. by apply keeps_messages_step.
Qed.

Lemma only_reset_removes_witness :
  messageOrder Scenario.submittedState
  `prefix_of`
  messageOrder
    (runReducer Scenario.submittedState
       [(1001%N, START_ASSISTANT_MESSAGE "a1" None);
        (1002%N, SET_ERROR "boom")]).
Proof.
  refine (proj1 (only_reset_removes Scenario.submittedState
                   [(1001%N, START_ASSISTANT_MESSAGE "a1" None);
                    (1002%N, SET_ERROR "boom")] _)).
  repeat constructor.
Defined.

(** X10.  The two revisions of the reducer agree on every run from the
    initial state that has no [UPDATE_ASSISTANT_JSON_CONTENT]: the wider
    test of the later revision's completion accepts nothing that the
    earlier one rejects, because the two ids it compares with always
    agree. *)
Theorem revisions_agree (actions : list (N * ChatAction)) :
  Forall (fun a => isJsonUpdate (snd a) = false) actions ->
  ChatPageAppend.runReducer initialState actions
  = runReducer initialState actions.
Proof.
  intros H. unfold ChatPageAppend.runReducer, runReducer.
  assert (forall st, loadingMessageId st = currentAssistantMessageId st ->
            foldl (fun st a => ChatPageAppend.chatReducer (fst a) st (snd a))
              st actions
            = foldl (fun st a => chatReducer (fst a) st (snd a)) st actions)
    as Hrun; [| by apply Hrun].
  induction H as [|[t a] actions Ha _ IH]; intros st Hst; [done |].
  cbn [foldl fst snd].
  assert (ChatPageAppend.chatReducer t st a = chatReducer t st a) as ->.
  { destruct a; try done. simpl. rewrite <- Hst.
    by destruct (notSameId (loadingMessageId st) id). }
  apply IH. by apply ids_agree_step.
Qed.

Lemma revisions_agree_witness :
  ChatPageAppend.runReducer initialState
    [(1%N, START_ASSISTANT_MESSAGE "a1" None);
     (2%N, APPEND_DELTA "a1" "Hi");
     (3%N, COMPLETE_ASSISTANT_MESSAGE "a1")]
  = runReducer initialState
      [(1%N, START_ASSISTANT_MESSAGE "a1" None);
       (2%N, APPEND_DELTA "a1" "Hi");
       (3%N, COMPLETE_ASSISTANT_MESSAGE "a1")].
Proof. apply revisions_agree. repeat constructor. Defined.

End ReducerLaws.

(** ** What the page shows *)

Module ViewFacts.

Import ChatPage ChatPageFacts Scenario Runs ReducerInvariants ChatPageView.

Lemma marked_step (now : N) (st : ChatState) (action : ChatAction) :
  listed st -> loadingIsMarked st ->
  match introduces now action with
  | Some id => id ∉ messageOrder st
  | None => True
  end ->
  loadingIsMarked (chatReducer now st action).
Proof.
  intros Hlisted Hmarked Hfresh.
  destruct action; simpl in *; repeat case_match; try done;
    intros l Hl; simpl in *; try done.
  - (* START *) injection Hl as <-. rewrite lookup_insert_eq. eauto.
  - (* APPEND_DELTA *)
    destruct (Hmarked l Hl) as (m' & Hm' & Hload).
    destruct (decide (id = l)) as [-> |].
    + rewrite lookup_insert_eq. simplify_eq. eauto.
    + rewrite lookup_insert_ne by done. eauto.
  - (* UPDATE_ASSISTANT_JSON_CONTENT *)
    destruct (Hmarked l Hl) as (m' & Hm' & Hload).
    destruct (decide (id = l)) as [-> |].
    + rewrite lookup_insert_eq. simplify_eq. eauto.
    + rewrite lookup_insert_ne by done. eauto.
  - (* UPDATE_AGENT_NAME *)
    destruct (Hmarked l Hl) as (m' & Hm' & Hload).
    destruct (decide (id = l)) as [-> |].
    + rewrite lookup_insert_eq. simplify_eq. eauto.
    + rewrite lookup_insert_ne by done. eauto.
  - (* ADD_USER_MESSAGE *)
    destruct (Hmarked l Hl) as (m' & Hm' & Hload).
    rewrite lookup_insert_ne; [eauto |].
    intros <-. apply Hfresh. apply Hlisted. eauto.
Qed.

Lemma fresh_run_invariants (st : ChatState) (actions : list (N * ChatAction)) :
  listed st -> filed st -> loadingIsMarked st -> freshRun st actions ->
  listed (runReducer st actions) /\ filed (runReducer st actions)
  /\ loadingIsMarked (runReducer st actions).
Proof.
  revert st. induction actions as [|[now a] actions IH];
    intros st Hl Hf Hm Hfresh; [done |].
  destruct Hfresh as [Hnew Hrest]. cbn [runReducer foldl fst snd].
  apply IH; [by apply listed_step | by apply filed_step
             | by apply marked_step | done].
Qed.

(** X11.  On every page reached from the initial state by a run whose
    appended ids are new, no bubble shows the streaming cursor and the copy
    button at once: the cursor marks the loading message, and the copy
    button is kept for messages that are not loading. *)
Theorem cursor_and_copy_button_exclude
    (actions : list (N * ChatAction)) :
  freshRun initialState actions ->
  Forall (fun b => cursorXorCopy b = true)
    (render (runReducer initialState actions)).
Proof.
  intros Hfresh.
  destruct (fresh_run_invariants initialState actions) as (Hl & Hf & Hm);
    [apply listed_initial | | | done |].
  { intros id m. simpl. by rewrite lookup_empty. }
  { intros id. done. }
  set (st := runReducer initialState actions) in *.
  apply Forall_forall. intros b Hb. unfold render in Hb.
  apply list_elem_of_fmap in Hb as (msg & -> & Hmsg).
  apply list_elem_of_omap in Hmsg as (id & Hid & Hlook).
  unfold renderMessage. destruct (msg_role msg); [done |]. simpl.
  destruct (sameId (loadingMessageId st) (msg_id msg)) eqn:Hsame;
    [| by rewrite andb_false_r].
  unfold sameId in Hsame.
  destruct (loadingMessageId st) as [l|] eqn:Hload; [| done].
  apply String.eqb_eq in Hsame as ->.
  destruct (Hm _ Hload) as (m' & Hm' & Hflag).
  rewrite (Hf _ _ Hlook) in Hm'. simplify_eq. rewrite Hflag. simpl.
  by rewrite andb_false_r.
Qed.

Lemma cursor_and_copy_button_exclude_witness :
  Forall (fun b => cursorXorCopy b = true)
    (render
       (runReducer initialState
          [(1000%N, ADD_USER_MESSAGE
                      (mkMessage "user-1000" user "show u9s players" None None));
           (1001%N, START_ASSISTANT_MESSAGE "a1" None);
           (1002%N, UPDATE_ASSISTANT_JSON_CONTENT "a1" "Here are" false None)])).
Proof.
  apply cursor_and_copy_button_exclude. cbn.
  repeat split; apply (bool_decide_unpack _); by vm_compute.
Defined.

Lemma splitLines_cons (s : string) :
  exists l ls, splitLines s = l :: ls.
Proof.
  destruct s as [|c s]; simpl; [eauto |].
  destruct (Ascii.eqb c JS.chLF); [eauto |].
  destruct (splitLines s); eauto.
Qed.

Lemma joinLines_cons_char (c : ascii) (l : string) (ls : list string) :
  joinLines (String c l :: ls) = String c (joinLines (l :: ls)).
Proof. destruct ls; done. Qed.

Lemma joinLines_cons_line (a b : string) (ls : list string) :
  joinLines (a :: b :: ls) = a ++ String JS.chLF (joinLines (b :: ls)).
Proof. done. Qed.

(** X12.  Splitting a text at its line feeds loses nothing: the lines, put
    together again with a line feed between neighbours, are the text; so
    the lines that [MessageList] renders for a message that is not shown
    as thinking spell out its content. *)
Theorem rendered_lines_spell_the_content
    (loadingMessageId : option string) (msg : Message) (lines : list string)
    (cursor copyButton : bool) :
  renderMessage loadingMessageId msg
  = AssistantBubble false lines cursor copyButton ->
  joinLines lines = msg_content msg.
Proof.
  assert (forall s, joinLines (splitLines s) = s) as Hround.
  { induction s as [|c s IH]; [done |]. simpl.
    destruct (Ascii.eqb_spec c JS.chLF) as [-> | Hc].
    - destruct (splitLines_cons s) as (l & ls & Hs). rewrite Hs in *.
      by rewrite joinLines_cons_line, IH.
    - destruct (splitLines_cons s) as (l & ls & Hs). rewrite Hs in *.
      by rewrite joinLines_cons_char, IH. }
  unfold renderMessage. destruct (msg_role msg); [done |].
  destruct (isTrue (msg_isLoading msg) && negb (JS.truthy (msg_content msg)))%bool;
    [done |].
  intros [= <- _ _]. apply Hround.
Qed.

Lemma rendered_lines_spell_the_content_witness :
  joinLines ["Here are"; "3 players"]
  = msg_content
      (mkMessage "a1" assistant ("Here are" ++ String JS.chLF "3 players")
         (Some "Assistant") (Some true)).
Proof.
  apply (rendered_lines_spell_the_content (Some "a1") _ _ true false).
  reflexivity.
Defined.

End ViewFacts.

(** ** What the read loop of [handleSendMessage] dispatches *)

Module ReadLoopFacts.

Import JS JSFacts JSON ChatPage SendMessage Runs.

Ltac split_cases :=
  repeat first [progress simplify_option_eq | case_match].









Lemma upto_then_from (i : nat) (s : string) :
  substring_upto i s ++ substring_from i s = s.
Proof.
  revert s. induction i as [|i IH]; intros [|c s]; simpl; try done.
  rewrite append_cons. by rewrite IH.
Qed.

Lemma startsWith_split (s p : string) :
  startsWith s p = true -> s = p ++ substring_from (String.length p) s.
Proof.
  revert s. induction p as [|a p IH]; intros s H; [done |].
  apply startsWith_cons_inv in H as (s' & -> & H).
  rewrite append_cons. simpl. by rewrite <- IH.
Qed.

Lemma cut_at_delimiter (buffer delim : string) (i : nat) :
  occursAt buffer delim i ->
  buffer = substring_upto i buffer ++ delim
           ++ substring_from (i + String.length delim) buffer.
Proof.
  intros H. rewrite substring_from_add, <- (startsWith_split _ _ H).
  by rewrite upto_then_from.
Qed.

(** X15.  A cut of the inner loop of [handleSendMessage] drops nothing but
    the delimiter: the buffer is the text before the boundary, one of the
    two delimiters, and the buffer that is left, in this order; the block
    handed on is that text trimmed. *)
Theorem send_message_cut_drops_only_the_delimiter
    (buffer block rest : string) :
  cutBlock buffer = Some (block, rest) ->
  exists before delim,
    (delim = LFLF \/ delim = CRLFCRLF)
    /\ buffer = before ++ delim ++ rest
    /\ block = trim before.
Proof.
  unfold cutBlock, findBoundary.
  destruct (indexOf buffer LFLF) as [n|] eqn:En.
  - apply indexOf_Some in En as (Hn & _).
    assert (startsWith (substring_from n buffer) CRLFCRLF = false) as ->.
    { unfold occursAt in Hn.
      apply startsWith_cons_inv in Hn as (s' & -> & _). done. }
    intros [= <- <-]. exists (substring_upto n buffer), LFLF.
    split_and!; [by left | by apply cut_at_delimiter | done].
  - destruct (indexOf buffer CRLFCRLF) as [c|] eqn:Ec; [| done].
    apply indexOf_Some in Ec as (Hc & _). pose proof Hc as Hc'.
    unfold occursAt in Hc'. rewrite Hc'.
    intros [= <- <-]. exists (substring_upto c buffer), CRLFCRLF.
    split_and!; [by right | by apply cut_at_delimiter | done].
Qed.

Lemma send_message_cut_drops_only_the_delimiter_witness :
  exists before delim,
    (delim = LFLF \/ delim = CRLFCRLF)
    /\ " a" ++ CRLFCRLF ++ "b" = before ++ delim ++ "b"
    /\ "a" = trim before.
Proof.
  apply (send_message_cut_drops_only_the_delimiter
           (" a" ++ CRLFCRLF ++ "b") "a" "b").
  by vm_compute.
Defined.

(** X16.  A cut of [processStreamChunk] drops nothing but the delimiter:
    the buffer is the text before the boundary, one of the two delimiters,
    and the remaining buffer, in this order; the message block is that text
    trimmed. *)
Theorem process_chunk_cut_drops_only_the_delimiter
    (buffer block rest : string) :
  ChatInterface.cutBlock buffer = Some (block, rest) ->
  exists before delim,
    (delim = LFLF \/ delim = CRLFCRLF)
    /\ buffer = before ++ delim ++ rest
    /\ block = trim before.
Proof.
  unfold ChatInterface.cutBlock, ChatInterface.nextBoundary.
  destruct (indexOf buffer LFLF) as [n|] eqn:En;
    destruct (indexOf buffer CRLFCRLF) as [c|] eqn:Ec; try done.
  all: try (apply indexOf_Some in En as (Hn & _)).
  all: try (apply indexOf_Some in Ec as (Hc & _)).
  - destruct (Nat.ltb n c); intros [= <- <-].
    + exists (substring_upto n buffer), LFLF.
      split_and!; [by left | by apply cut_at_delimiter | done].
    + exists (substring_upto c buffer), CRLFCRLF.
      split_and!; [by right | by apply cut_at_delimiter | done].
  - intros [= <- <-]. exists (substring_upto n buffer), LFLF.
    split_and!; [by left | by apply cut_at_delimiter | done].
  - intros [= <- <-]. exists (substring_upto c buffer), CRLFCRLF.
    split_and!; [by right | by apply cut_at_delimiter | done].
Qed.

Lemma process_chunk_cut_drops_only_the_delimiter_witness :
  exists before delim,
    (delim = LFLF \/ delim = CRLFCRLF)
    /\ " a" ++ LFLF ++ "b" ++ CRLFCRLF = before ++ delim ++ "b" ++ CRLFCRLF
    /\ "a" = trim before.
Proof.
  apply (process_chunk_cut_drops_only_the_delimiter
           (" a" ++ LFLF ++ "b" ++ CRLFCRLF) "a" ("b" ++ CRLFCRLF)).
  by vm_compute.
Defined.

Lemma indexOf_append_None (a b p : string) :
  p <> EmptyString -> indexOf (a ++ b) p = None -> indexOf a p = None.
Proof.
  intros Hp H. destruct (indexOf a p) as [i|] eqn:E; [| done].
  apply (ChatInterfaceFacts.indexOf_append_Some a b p i Hp) in E. congruence.
Qed.

Lemma drain_without_delimiter (fuel : nat) (l : Loop) :
  indexOf (fetchBuffer l) LFLF = None ->
  indexOf (fetchBuffer l) CRLFCRLF = None ->
  drain fuel l = Some (l, noTrace).
Proof.
  intros H1 H2. destruct fuel; [done |]. simpl.
  unfold cutBlock, findBoundary. by rewrite H1, H2.
Qed.

Lemma readLoop_without_delimiter (chunks : list (N * string)) (doneAt : N)
    (l : Loop) (state : ChatState) :
  indexOf (fetchBuffer l ++ wholeText chunks) LFLF = None ->
  indexOf (fetchBuffer l ++ wholeText chunks) CRLFCRLF = None ->
  readLoop chunks doneAt l state
  = Some (mkLoop (fetchBuffer l ++ wholeText chunks) (activeMessageId l)
            (currentAssistantJsonBuffer l),
          dispatchAll doneAt state (onDone l)).
Proof.
  revert l state. induction chunks as [|[t text] chunks IH]; intros l state.
  - intros _ _. simpl. unfold wholeText. simpl. rewrite append_empty_r.
    by destruct l.
  - unfold wholeText. cbn [fmap list_fmap foldr snd].
    fold (wholeText chunks). rewrite <- append_assoc. intros H1 H2.
    cbn [readLoop]. unfold onChunk.
    rewrite drain_without_delimiter; simpl;
      [| by eapply indexOf_append_None | by eapply indexOf_append_None].
    by rewrite IH.
Qed.

(** X17.  A body in which no blank line ever arrives dispatches nothing:
    when the stream ends the page has gained the user message only and is
    still loading, so further sends are refused. *)
Theorem body_without_blank_line_leaves_page_loading
    (now failedAt doneAt : N) (state : ChatState)
    (jsonBuffer userInput : string) (chunks : list (N * string)) :
  isLoading state = false ->
  indexOf (wholeText chunks) LFLF = None ->
  indexOf (wholeText chunks) CRLFCRLF = None ->
  exists state',
    handleSendMessage now state jsonBuffer userInput (Body chunks doneAt)
      failedAt = Some state'
    /\ isLoading state' = true
    /\ messageOrder state' = (messageOrder state ++ [("user-" ++ decimal now)%string])%list
    /\ loadingMessageId state' = loadingMessageId state
    /\ handleSendMessage failedAt state' jsonBuffer userInput
         (Body chunks doneAt) failedAt = Some state'.
Proof.
  intros Hidle H1 H2. unfold handleSendMessage. rewrite Hidle.
  rewrite readLoop_without_delimiter by done. simpl. eauto 10.
Qed.

Lemma body_without_blank_line_leaves_page_loading_witness :
  exists state',
    handleSendMessage 1000 initialState EmptyString "show u9s players"
      (Body [(1001%N, Scenario.frameStart); (1002%N, String chLF "data: x")]
         1003) 1004 = Some state'
    /\ isLoading state' = true
    /\ messageOrder state' = ([] ++ [("user-" ++ decimal 1000)%string])%list
    /\ loadingMessageId state' = None
    /\ handleSendMessage 1004 state' EmptyString "show u9s players"
         (Body [(1001%N, Scenario.frameStart); (1002%N, String chLF "data: x")]
            1003) 1004 = Some state'.
Proof.
  apply (body_without_blank_line_leaves_page_loading 1000 1004 1003
           initialState EmptyString "show u9s players"
           [(1001%N, Scenario.frameStart); (1002%N, String chLF "data: x")]);
    by vm_compute.
Defined.

(** X18.  A request that fails before a body can be read (an HTTP status
    that is not ok, a null body, a rejected fetch) adds the user message and
    one assistant message [Error: ...] with the text of the failure, and
    leaves the page idle: not loading, no message loading. *)
Theorem failed_request_shows_one_error
    (now failedAt : N) (state : ChatState) (jsonBuffer userInput : string)
    (response : Response) (text : string) :
  isLoading state = false ->
  failure response = Some text ->
  exists state',
    handleSendMessage now state jsonBuffer userInput response failedAt
    = Some state'
    /\ messageOrder state'
       = (messageOrder state
          ++ [("user-" ++ decimal now)%string;
              ("error-" ++ decimal failedAt)%string])%list
    /\ messages state' !! ("error-" ++ decimal failedAt)
       = Some (mkMessage ("error-" ++ decimal failedAt) assistant
                 ("Error: " ++ text) (Some "System Error") None)
    /\ isLoading state' = false
    /\ loadingMessageId state' = None.
Proof.
  intros Hidle Hfail. unfold handleSendMessage. rewrite Hidle.
  destruct response; simplify_eq/=; eexists; split; try done; simpl;
    rewrite <- app_assoc, lookup_insert_eq; done.
Qed.

Lemma failed_request_shows_one_error_witness :
  exists state',
    handleSendMessage 1000 initialState EmptyString "hello" (HttpError 503) 1001
    = Some state'
    /\ messageOrder state'
       = ([] ++ [("user-" ++ decimal 1000)%string;
              ("error-" ++ decimal 1001)%string])%list
    /\ messages state' !! ("error-" ++ decimal 1001)
       = Some (mkMessage ("error-" ++ decimal 1001) assistant
                 ("Error: " ++ "HTTP error! status: 503") (Some "System Error")
                 None)
    /\ isLoading state' = false
    /\ loadingMessageId state' = None.
Proof.
  apply (failed_request_shows_one_error 1000 1001 initialState EmptyString
           "hello" (HttpError 503)); reflexivity.
Defined.

End ReadLoopFacts.

(** ** Decoding a block and updating the messages in the chat component *)

Module ChatInterfaceBlockFacts.

Import JS JSFacts JSON ChatInterface ChatInterfaceBlocks ChatPageView.
Import ReadLoopFacts.

Lemma splitLines_append (a b : string) :
  splitLines (a ++ String chLF b) = (splitLines a ++ splitLines b)%list.
Proof.
  induction a as [|c a IH]; [done |]. rewrite append_cons. simpl.
  rewrite IH. destruct (Ascii.eqb c chLF); [done |].
  by destruct (ViewFacts.splitLines_cons a) as (l & ls & ->).
Qed.

Lemma splitLines_one_line (line : string) :
  indexOf line (String chLF EmptyString) = None -> splitLines line = [line].
Proof.
  induction line as [|c line IH]; [done |]. cbn [indexOf startsWith].
  rewrite (Ascii.eqb_sym chLF c). destruct (Ascii.eqb c chLF) eqn:Hc.
  - by destruct line.
  - destruct (indexOf line _) eqn:E; [done |]. intros _.
    simpl. rewrite Hc. by rewrite IH.
Qed.

(** X21.  Of several [data:] lines in a block the last one counts: a block
    followed by a line feed and one more line decodes to the value of that
    line when the line, trimmed, starts with [data:], and to what the block
    before it decodes to when it does not. *)
Theorem last_data_line_wins (block line : string) :
  indexOf line (String chLF EmptyString) = None ->
  eventJsonString (block ++ String chLF line)
  = if startsWith (trim line) "data:"
    then Some (trim (substring_from 5 (trim line)))
    else eventJsonString block.
Proof.
  intros Hline. unfold eventJsonString.
  rewrite splitLines_append, foldl_app, (splitLines_one_line _ Hline). done.
Qed.

Lemma last_data_line_wins_witness :
  eventJsonString (("data: 1" ++ String chLF "id: 7") ++ String chLF " data: 2 ")
  = if startsWith (trim " data: 2 ") "data:"
    then Some (trim (substring_from 5 (trim " data: 2 ")))
    else eventJsonString ("data: 1" ++ String chLF "id: 7").
Proof. apply last_data_line_wins. reflexivity. Defined.

(** X22.  The updater takes no message away and touches one at most: the
    new array has the messages of the old one, at their old places, except
    for the target that [getOrCreateTargetMessage] found, and is longer by
    two at most (a new assistant message, an error message). *)
Theorem updater_keeps_the_other_messages
    (now later : N) (random : string) (lastAgentName ref : option string)
    (prevMessages : list Message) (parsedData : json) (u : Update) :
  updateMessages now later random lastAgentName ref prevMessages parsedData
  = Some u ->
  length prevMessages <= length (upd_messages u) <= length prevMessages + 2
  /\ forall i m, prevMessages !! i = Some m ->
                 targetIndex ref prevMessages <> Some i ->
                 upd_messages u !! i = Some m.
Proof.
  unfold updateMessages. intros H. destruct parsedData; [done | ..].
  all: destruct (targetIndex ref prevMessages) as [i0|] eqn:Ht.
  all: try destruct (prevMessages !! i0) as [m0|] eqn:Hm0.
  all: split_cases; simpl.
  all: rewrite ?length_insert, ?length_app, ?length_insert; simpl.
  all: (split; [lia |]); intros i m Hi Hne.
  all: pose proof (lookup_lt_Some _ _ _ Hi) as Hlt.
  all: rewrite ?lookup_app_l by (rewrite ?length_insert, ?length_app; simpl; lia).
  all: rewrite ?list_lookup_insert_ne by (try congruence; lia).
  all: rewrite ?lookup_app_l by (rewrite ?length_insert, ?length_app; simpl; lia).
  all: done.
Qed.

Lemma updater_keeps_the_other_messages_witness :
  upd_messages
    (mkUpdate
       [mkMessage "user-1" ChatPage.user "hi" None;
        mkMessage "assistant-2-ab" ChatPage.assistant "Hello" (Some "Assistant")]
       (Some "assistant-2-ab") None None) !! 0
  = Some (mkMessage "user-1" ChatPage.user "hi" None).
Proof.
  refine (proj2 (updater_keeps_the_other_messages 3 4 "cd" None
                   (Some "assistant-2-ab")
                   [mkMessage "user-1" ChatPage.user "hi" None;
                    mkMessage "assistant-2-ab" ChatPage.assistant "Hel"
                      (Some "Assistant")]
                   (JObject [("event_type", JString "RawResponsesStreamEvent");
                             ("data", JObject [("delta", JString "lo")])])
                   _ _) 0 _ _ _).
  - reflexivity.
  - reflexivity.
  - by vm_compute.
Defined.

Lemma isString_other (v : jsval) (a b : string) :
  isString v a = true -> a <> b -> isString v b = false.
Proof.
  destruct v as [[| | |s| |]|]; simpl; try done.
  intros ->%String.eqb_eq Hne. by apply String.eqb_neq.
Qed.

(** X23.  An error event that arrives while no assistant message of the
    component is open leaves two new messages, not one: the updater first
    creates the empty assistant message for the event and then appends the
    error message [Backend error: ...] behind it; the ref is cleared and
    the loading flag is set to false. *)
Theorem error_without_open_message_adds_placeholder
    (now later : N) (random : string) (lastAgentName ref : option string)
    (prevMessages : list Message) (members : list (string * json))
    (err : option string) :
  targetIndex ref prevMessages = None ->
  (isString (lookupMember members "event_type") "ServerError"
   || isString (lookupMember members "event_type") "AgentErrorEvent")%bool
  = true ->
  truthyText (getOpt (lookupMember members "data") "error") = Some err ->
  updateMessages now later random lastAgentName ref prevMessages
    (JObject members)
  = Some (mkUpdate
            (prevMessages
             ++ [mkMessage ("assistant-" ++ decimal now ++ "-" ++ random)%string
                   ChatPage.assistant EmptyString
                   (Some (ChatPage.orDefault lastAgentName "Assistant"));
                 mkMessage ("error-" ++ decimal later)%string
                   ChatPage.assistant
                   ("Backend error: " ++ default "Unknown error" err)%string
                   (Some "System Error")])%list
            None (Some false) None).
Proof.
  intros Ht Hty Herr. unfold updateMessages. rewrite Ht. cbn [member].
  assert (forall other,
            other <> "ServerError" -> other <> "AgentErrorEvent" ->
            isString (lookupMember members "event_type") other = false)
    as Hother.
  { intros other H1 H2. apply orb_true_iff in Hty as [H | H];
      by eapply isString_other. }
  rewrite !Hother by done. rewrite Hty, Herr. simpl.
  by rewrite <- app_assoc.
Qed.

Lemma error_without_open_message_adds_placeholder_witness :
  updateMessages 5 6 "ab" None None
    [mkMessage "user-1" ChatPage.user "hi" None]
    (JObject [("event_type", JString "ServerError");
              ("data", JObject [("error", JString "boom")])])
  = Some (mkUpdate
            ([mkMessage "user-1" ChatPage.user "hi" None]
             ++ [mkMessage ("assistant-" ++ decimal 5 ++ "-" ++ "ab")%string
                   ChatPage.assistant EmptyString
                   (Some (ChatPage.orDefault None "Assistant"));
                 mkMessage ("error-" ++ decimal 6)%string
                   ChatPage.assistant
                   ("Backend error: " ++ default "Unknown error" (Some "boom"))%string
                   (Some "System Error")])%list
            None (Some false) None).
Proof.
  apply error_without_open_message_adds_placeholder; reflexivity.
Defined.

End ChatInterfaceBlockFacts.
